(** * financial_functions.py: rates, debt ledger and bonds

    A shallow embedding of [src/financial_functions.py] and the properties
    of its rate algebra, of the [debt] class and of the [Bonds] class.

    Numbers.  Python's [int] and [float] values are read as real numbers
    ([R]); rounding and overflow of floats are not modelled: in
    particular [**] has no OverflowError here, and a statement about the
    value or the exception of one call carries the hypothesis
    [in_float_range] on the power it computes.  Where
    Python leaves the reals (a negative base raised to a non-integral
    exponent gives a [complex]; arithmetic on [float('inf')] gives
    [inf] or [nan]) the model stops with the outcome [NonReal] and does
    not follow what Python computes from that value.

    Errors.  An operation that raises returns [Raise e]; the exceptions
    are those the modelled code can raise.

    State.  Methods that assign attributes of [self] return the new
    object next to their outcome.

    Outside the embedding: the fetch of the reference rates
    ([getRiskFreeRate]; the table it returns is an argument, [cetes]),
    printing ([summary], the [silence] flags), the placeholders [save]
    and [update], and [simulateYears] and [simulateMonths].  A [debt]
    object is the record of the attributes its constructor assigns;
    [strptime] and the clock are arguments where a method needs them. *)

From Stdlib Require Import Reals Lra Lia ZArith Bool String List.
Import ListNotations.
Open Scope R_scope.
Open Scope string_scope.
Open Scope list_scope.

(** ** Outcomes of a Python evaluation *)

Inductive pyexn : Type :=
| ZeroDivisionError
| KeyError
| ValueError
| AttributeError
| UnboundLocalError
| TypeError
| NameError.

Inductive outcome (A : Type) : Type :=
| Ret (a : A)
| Raise (e : pyexn)
| NonReal.

Arguments Ret {A} a.
Arguments Raise {A} e.
Arguments NonReal {A}.

Definition bind {A B : Type} (c : outcome A) (k : A -> outcome B) : outcome B :=
  match c with
  | Ret a => k a
  | Raise e => Raise e
  | NonReal => NonReal
  end.

Notation "x <- c ;; k" := (bind c (fun x => k))
  (at level 61, c at next level, right associativity).

(** ** Python arithmetic on real-valued numbers *)

(** [x / y]: true division. *)
Definition pydiv (x y : R) : outcome R :=
  if Req_dec_T y 0 then Raise ZeroDivisionError else Ret (x / y).

(** [y] is the value of an [int], or of a [float] with no fractional part. *)
Definition integral (y : R) : {IZR (Int_part y) = y} + {IZR (Int_part y) <> y} :=
  Req_dec_T (IZR (Int_part y)) y.

(** [x ** y].  A positive base gives [exp (y * ln x)]; a zero base gives 1,
    0 or ZeroDivisionError by the sign of the exponent; a negative base
    has a real power only for an integral exponent, and a complex one
    otherwise. *)
Definition pypow (x y : R) : outcome R :=
  match total_order_T 0 x with
  | inleft (left _) => Ret (Rpower x y)
  | inleft (right _) =>
      if Rlt_dec y 0 then Raise ZeroDivisionError
      else if Req_dec_T y 0 then Ret 1 else Ret 0
  | inright _ =>
      if integral y then Ret (powerRZ x (Int_part y)) else NonReal
  end.

(** [int(x)]: truncation towards zero. *)
Definition pyint (x : R) : Z :=
  if Rle_dec 0 x then Int_part x else (- Int_part (- x))%Z.

(** [round(x, 2)]: the nearest multiple of 0.01, a tie going to the even
    one. *)
Definition pyround2 (x : R) : R :=
  let f := Int_part (x * 100) in
  let d := x * 100 - IZR f in
  if Rlt_dec d (1 / 2) then IZR f / 100
  else if Rlt_dec (1 / 2) d then IZR (f + 1) / 100
  else if Z.even f then IZR f / 100 else IZR (f + 1) / 100.



(** ** Basic financial functions (module level lambdas) *)

Definition futureValue (capital interest periods : R) : outcome R :=
  p <- pypow (1 + interest) periods ;;
  Ret (capital * p).

Definition contFutureValue (capital interest years : R) : outcome R :=
  Ret (capital * exp (interest * years)).

Definition presetValue (capital interest periods : R) : outcome R :=
  p <- pypow (1 + interest) (- periods) ;;
  Ret (capital * p).

Definition contPresentValue (capital interest years : R) : outcome R :=
  Ret (capital * exp (- interest * years)).

Definition annualInterest (initial_capital end_capital years : R) : outcome R :=
  q <- pydiv end_capital initial_capital ;;
  e <- pydiv 1 years ;;
  p <- pypow q e ;;
  Ret (p - 1).

Definition equivalentAnnualInterest (rate cap : R) : outcome R :=
  q <- pydiv rate cap ;;
  p <- pypow (1 + q) cap ;;
  Ret (p - 1).

Definition equivalentRate (rate cap new_cap : R) : outcome R :=
  q <- pydiv rate cap ;;
  e <- pydiv cap new_cap ;;
  p <- pypow (1 + q) e ;;
  Ret (new_cap * (p - 1)).

Definition realRate (rate inflation : R) : outcome R :=
  q <- pydiv (1 + rate) (1 + inflation) ;;
  Ret (q - 1).

(** The names the module binds at its top level: its imports, its
    functions and its classes. *)
Definition module_names : list string :=
  ["np"; "datetime"; "date"; "toDate"; "futureValue"; "contFutureValue";
   "presetValue"; "contPresentValue"; "annualInterest";
   "equivalentAnnualInterest"; "equivalentRate"; "realRate";
   "getRiskFreeRate"; "interest_rate"; "debt"; "Bonds"].

(** [name(x, y)], a call of a global name with two numbers.  A name the
    module does not bind (and that is no builtin) raises NameError when
    it is looked up, before the arguments are evaluated.  Of the bound
    names [equivalentAnnualInterest] and [realRate] take two numbers; a
    call of any other with two numbers raises TypeError. *)
Definition call_global (name : string) (x y : R) : outcome R :=
  if negb (existsb (String.eqb name) module_names) then Raise NameError
  else if String.eqb name "equivalentAnnualInterest" then equivalentAnnualInterest x y
  else if String.eqb name "realRate" then realRate x y
  else Raise TypeError.

(** [contEquivalentRate(rate, cap)], as [interest_rate.annualRate] and
    [interest_rate.riskFreeSpread] write it.  The source file neither
    defines nor imports the name. *)
Definition contEquivalentRate (rate cap : R) : outcome R :=
  call_global "contEquivalentRate" rate cap.

(** ** Arguments dispatched on their Python type *)

(** A [cap_desc] argument: a [str], an [int], or a value of another type. *)
Inductive cap_desc : Type :=
| CapStr (s : string)
| CapInt (n : Z)
| CapOther.

(** A value of the [cap_options] table: a number of periods per year, or
    [float('inf')]. *)
Inductive capval : Type :=
| Per (n : Z)
| Inf.

Fixpoint dict_get {V : Type} (d : list (string * V)) (k : string) : option V :=
  match d with
  | [] => None
  | (k', v) :: d' => if String.eqb k' k then Some v else dict_get d' k
  end.

(** A dictionary with [int] keys. *)
Fixpoint int_dict_get {V : Type} (d : list (Z * V)) (k : Z) : option V :=
  match d with
  | [] => None
  | (k', v) :: d' => if Z.eqb k' k then Some v else int_dict_get d' k
  end.

(** The ['rate'] and ['cap'] entries of a rate dictionary. *)
Record rate_dict : Type := mk_rate_dict {
  dict_rate : R;
  dict_cap : R
}.

(** ** class interest_rate *)

Module interest_rate.

Definition cap_options : list (string * capval) :=
  [("daily", Per 360); ("1m", Per 12); ("2m", Per 6); ("3m", Per 4);
   ("4m", Per 3); ("6m", Per 2); ("1y", Per 1); ("cont", Inf)].

Record obj : Type := mk {
  reference_rate : rate_dict
}.

(** The local [aux] after the [if]/[elif] on the type of [cap_desc]:
    [None] when neither branch assigned it. *)
Definition get_aux (cd : cap_desc) : outcome (option capval) :=
  match cd with
  | CapStr s =>
      match dict_get cap_options s with
      | Some v => Ret (Some v)
      | None => Raise KeyError
      end
  | CapInt n => Ret (Some (Per n))
  | CapOther => Ret None
  end.

(** [cap_desc == 'cont'] *)
Definition is_cont (cd : cap_desc) : bool :=
  match cd with
  | CapStr s => String.eqb s "cont"
  | _ => false
  end.

(** With [aux = inf] (which only ['cont'] maps to, so the branch is not
    reached past the ['cont'] test) [equivalentRate] would multiply
    [inf] by [0.0]. *)
Definition annualRate (self : obj) (cd : cap_desc) : outcome R :=
  aux <- get_aux cd ;;
  if is_cont cd then
    contEquivalentRate (dict_rate (reference_rate self)) (dict_cap (reference_rate self))
  else
    match aux with
    | None => Raise UnboundLocalError
    | Some (Per n) =>
        equivalentRate (dict_rate (reference_rate self))
                       (dict_cap (reference_rate self)) (IZR n)
    | Some Inf =>
        _ <- pydiv (dict_rate (reference_rate self)) (dict_cap (reference_rate self)) ;;
        NonReal
    end.

Definition rate (self : obj) (cd : cap_desc) : outcome R :=
  aux <- get_aux cd ;;
  if is_cont cd then annualRate self cd
  else
    a <- annualRate self cd ;;
    match aux with
    | None => Raise UnboundLocalError
    | Some (Per n) => pydiv a (IZR n)
    | Some Inf => Ret 0
    end.

(** [cetes] is the dictionary [getRiskFreeRate()] returned when the
    class was created, from a tenor in days to a rate in percent;
    [kind] is compared with ['cont'].  The method also prints its
    result unless [silence] is set. *)
Definition riskFreeSpread (cetes : list (Z * R)) (self : obj)
    (risk_free : Z) (kind : string) : outcome R :=
  let reference (eq : R -> R -> outcome R) : outcome R :=
    match int_dict_get cetes risk_free with
    | None => Raise KeyError
    | Some c =>
        x <- pydiv c 100 ;;
        f <- pydiv 360 (IZR risk_free) ;;
        eq x f
    end in
  if String.eqb kind "cont" then
    r <- contEquivalentRate (dict_rate (reference_rate self))
                            (dict_cap (reference_rate self)) ;;
    rf <- reference contEquivalentRate ;;
    Ret (r - rf)
  else
    r <- equivalentAnnualInterest (dict_rate (reference_rate self))
                                  (dict_cap (reference_rate self)) ;;
    rf <- reference equivalentAnnualInterest ;;
    Ret (r - rf).

End interest_rate.

(** ** Methods that assign attributes: outcome and new object *)

Definition meth (S A : Type) : Type := S -> outcome A * S.

Definition mret {S A : Type} (a : A) : meth S A := fun s => (Ret a, s).

Definition mbind {S A B : Type} (c : meth S A) (k : A -> meth S B) : meth S B :=
  fun s =>
    match c s with
    | (Ret a, s') => k a s'
    | (Raise e, s') => (Raise e, s')
    | (NonReal, s') => (NonReal, s')
    end.

(** A call that reads [self] and assigns nothing. *)
Definition mread {S A : Type} (f : S -> outcome A) : meth S A :=
  fun s => (f s, s).

(** An assignment to attributes of [self]. *)
Definition massign {S : Type} (f : S -> S) : meth S unit :=
  fun s => (Ret tt, f s).

Definition mwhen {S : Type} (b : bool) (c : meth S unit) : meth S unit :=
  if b then c else mret tt.

Notation "x <~ c ;; k" := (mbind c (fun x => k))
  (at level 61, c at next level, right associativity).

(** Comparisons of real-valued numbers, as booleans. *)
Definition py_eq (x y : R) : bool := if Req_dec_T x y then true else false.
Definition py_lt (x y : R) : bool := if Rlt_dec x y then true else false.

(** ** class debt *)

Module debt.

(** An entry of [self.payments]: the dictionary
    [{'id':..., 'date':..., 'amount':..., 'valid':...}].  The date is
    kept as the string [registerPayment] received. *)
Record payment : Type := mk_payment {
  id : Z;
  date : string;
  amount : R;
  valid : bool
}.

(** The attributes [__init__] assigns and the modelled methods read.
    Dates are [datetime.date] values, kept as day numbers.
    [debt_status] exists only once [status] has assigned it. *)
Record obj : Type := mk {
  payments : list payment;
  invalid_payments : list Z;
  initial_date : Z;
  final_date : Z;
  actual_date : Z;
  capital : R;
  i : interest_rate.obj;
  final_capital : R;
  discount_rate : interest_rate.obj;
  debt_status : option string
}.

(** The [ref_date] argument of [daysToGo]: [None], a [str] or a date. *)
Inductive ref_date : Type :=
| RefNone
| RefStr (s : string)
| RefDate (d : Z).

(** The [initial_capital] argument of [simulate]: a [str] (the default
    is the empty string) or a number. *)
Inductive capital_arg : Type :=
| CapitalStr (s : string)
| CapitalNum (r : R).

Definition set_payments (self : obj) (ps : list payment) : obj :=
  mk ps (invalid_payments self) (initial_date self) (final_date self)
     (actual_date self) (capital self) (i self) (final_capital self)
     (discount_rate self) (debt_status self).

Definition set_invalid_payments (self : obj) (ip : list Z) : obj :=
  mk (payments self) ip (initial_date self) (final_date self)
     (actual_date self) (capital self) (i self) (final_capital self)
     (discount_rate self) (debt_status self).

Definition set_debt_status (st : string) (self : obj) : obj :=
  mk (payments self) (invalid_payments self) (initial_date self) (final_date self)
     (actual_date self) (capital self) (i self) (final_capital self)
     (discount_rate self) (Some st).

Definition set_valid (b : bool) (p : payment) : payment :=
  mk_payment (id p) (date p) (amount p) b.

(** [x in xs] on a list of ids. *)
Definition mem (x : Z) (xs : list Z) : bool := existsb (Z.eqb x) xs.

(** ['now' in date] *)
Definition contains_now (d : string) : bool :=
  match String.index 0 "now" d with
  | Some _ => true
  | None => false
  end.

(** The names a [debt] object answers to: the class body and the
    attributes of [__init__]. *)
Definition attribute_names : list string :=
  ["desc"; "rate_options"; "cap_options"; "cetes";
   "daysToGo"; "diffDates"; "discountRate"; "registerPayment";
   "invalidPayments"; "deleteInvalidPayment"; "resetInvalidPayments";
   "resetPayments"; "actualFinalDebt"; "actualPresentDebt"; "payDebt";
   "simulate"; "simulateYears"; "simulateMonths"; "status"; "summary";
   "save"; "update";
   "payments"; "invalid_payments"; "initial_date"; "final_date";
   "actual_date"; "initial_date_string"; "final_date_string"; "capital";
   "reference_rate"; "i"; "final_capital"; "discount_rate"].

Section Methods.

(** [toDate(datetime.strptime(s, '%b %d %Y'))] as a day number;
    [None] where [strptime] raises ValueError. *)
Variable strptime : string -> option Z.

Definition daysToGo (self : obj) (rd : ref_date) : outcome Z :=
  match rd with
  | RefNone => Ret (final_date self - actual_date self)%Z
  | RefStr s =>
      match strptime s with
      | Some d => Ret (final_date self - d)%Z
      | None => Raise ValueError
      end
  | RefDate d => Ret (final_date self - d)%Z
  end.

Definition discountRate (self : obj) (cd : cap_desc) : outcome R :=
  interest_rate.rate (discount_rate self) cd.

(** [now_string] is [datetime.strftime(datetime.now(), '%b %d %Y')]. *)
Definition registerPayment (now_string : string) (self : obj)
    (amount_ : R) (date_ : string) : obj :=
  let date_ := if contains_now date_ then now_string else date_ in
  match payments self with
  | [] => set_payments self [mk_payment 1 date_ amount_ true]
  | p0 :: ps =>
      let new_id := (id (last ps p0) + 1)%Z in
      set_payments self (payments self ++ [mk_payment new_id date_ amount_ true])
  end.

Definition invalidPayments (self : obj) (_id : Z) : obj :=
  let self := set_invalid_payments self (invalid_payments self ++ [_id]) in
  match payments self with
  | [] => self
  | _ =>
      set_payments self
        (map (fun p => if mem (id p) (invalid_payments self)
                       then set_valid false p else p)
             (payments self))
  end.

Definition deleteInvalidPayment (self : obj) (_id : Z) : obj :=
  let ip := filter (fun j => negb (Z.eqb j _id)) (invalid_payments self) in
  let self :=
    match payments self with
    | [] => self
    | _ =>
        set_payments self
          (map (fun p => if Z.eqb (id p) _id then set_valid true p else p)
               (payments self))
    end in
  set_invalid_payments self ip.

Definition resetInvalidPayments (self : obj) : obj :=
  set_invalid_payments self [].

Definition resetPayments (self : obj) : obj :=
  set_payments self [].

(** The [for] loop of [actualFinalDebt], from the payments left to
    visit and the running [total]. *)
Fixpoint actualFinalDebt_loop (self : obj) (ps : list payment) (total : R)
    : outcome R :=
  match ps with
  | [] => Ret total
  | p :: ps' =>
      if negb (valid p) then actualFinalDebt_loop self ps' total
      else
        _delta <- daysToGo self (RefStr (date p)) ;;
        dr <- discountRate self (CapStr "daily") ;;
        _future <- futureValue (amount p) dr (IZR _delta) ;;
        actualFinalDebt_loop self ps' (total + _future)
  end.

Definition actualFinalDebt (self : obj) : outcome R :=
  match payments self with
  | [] => Ret (final_capital self)
  | _ =>
      total <- actualFinalDebt_loop self (payments self) 0 ;;
      let actual_debt := final_capital self - total in
      if py_lt actual_debt 0 then Ret 0 else Ret actual_debt
  end.

Definition actualPresentDebt (self : obj) : outcome R :=
  afd <- actualFinalDebt self ;;
  dr <- discountRate self (CapStr "daily") ;;
  days <- daysToGo self RefNone ;;
  presetValue afd dr (IZR days).

(** [self.name(cap_desc)]: a name the object does not answer to
    raises AttributeError.  [discountRate] is the one method taking a
    [cap_desc]; the modelled code calls no other attribute this way. *)
Definition call_method (self : obj) (name : string) (cd : cap_desc)
    : outcome R :=
  if negb (existsb (String.eqb name) attribute_names) then Raise AttributeError
  else if String.eqb name "discountRate" then discountRate self cd
  else Raise TypeError.

Definition simulate (self : obj) (periods : R) (cd : cap_desc)
    (initial_capital : capital_arg) : outcome R :=
  let initial_capital :=
    match initial_capital with
    | CapitalStr _ => capital self
    | CapitalNum r => r
    end in
  r <- call_method self "rate" cd ;;
  futureValue initial_capital r periods.

Definition status (self : obj) : outcome string * obj :=
  (flag <~ mread (fun s => daysToGo s RefNone) ;;
   afd <~ mread actualFinalDebt ;;
   _ <~ mwhen (py_eq afd 0) (massign (set_debt_status "Done.")) ;;
   overdue <~ (if (flag <? 0)%Z
               then afd <~ mread actualFinalDebt ;; mret (py_lt 0 afd)
               else mret false) ;;
   _ <~ mwhen overdue (massign (set_debt_status "Overdue.")) ;;
   active <~ (if (flag >? 0)%Z
              then afd <~ mread actualFinalDebt ;; mret (py_lt 0 afd)
              else mret false) ;;
   _ <~ mwhen active (massign (set_debt_status "Active.")) ;;
   mread (fun s => match debt_status s with
                   | Some st => Ret st
                   | None => Raise AttributeError
                   end)) self.

Definition parse (s : string) : outcome Z :=
  match strptime s with
  | Some d => Ret d
  | None => Raise ValueError
  end.

Definition diffDates (self : obj) (date0 date1 : string) : outcome Z :=
  d0 <- parse date0 ;;
  d1 <- parse date1 ;;
  Ret (d1 - d0)%Z.

(** [today] is [toDate(datetime.now())] at the time of the call. *)
Definition payDebt (today : Z) (self : obj) (pay_date : option string)
    : outcome R :=
  pay_date <- match pay_date with
              | None => Ret today
              | Some s => parse s
              end ;;
  days <- daysToGo self (RefDate pay_date) ;;
  dr <- discountRate self (CapStr "daily") ;;
  afd <- actualFinalDebt self ;;
  presetValue afd dr (IZR days).

(** [debt(initial_date, final_date, capital, rate, discount_rate)], with
    the dictionary [cetes] of the class and the day [today] the clock
    gives. *)
Definition init (cetes : list (Z * R)) (today : Z)
    (initial_date_ final_date_ : string) (capital_ : R) (rate_ : rate_dict)
    (discount_rate_ : Z) : outcome obj :=
  d0 <- parse initial_date_ ;;
  d1 <- parse final_date_ ;;
  let i_ := interest_rate.mk rate_ in
  r <- interest_rate.rate i_ (CapInt 360) ;;
  fv <- futureValue capital_ r (IZR (d1 - d0)) ;;
  match int_dict_get cetes discount_rate_ with
  | None => Raise KeyError
  | Some c =>
      x <- pydiv c 100 ;;
      f <- pydiv 360 (IZR discount_rate_) ;;
      Ret (mk [] [] d0 d1 today capital_ i_ (pyround2 fv)
              (interest_rate.mk (mk_rate_dict x f)) None)
  end.

End Methods.

End debt.

(** ** class Bonds *)

Module Bonds.

(** The [coupons] dictionary once [__init__] has added its derived
    entries. *)
Record coupons_dict : Type := mk_coupons {
  delta_periods : R;
  interest_rate : R;
  value : R;
  pending_coupons : R;
  integer_coupons : Z;
  float_coupons : R
}.

(** The attributes of a [Bonds] object.  [lsp], [dirty_price],
    [delayed_interest], [clean_price] and [duration] exist only once a
    method has assigned them.  Each object has its own [coupons] here; in
    the source the dictionary is the caller's (or the shared default). *)
Record obj : Type := mk {
  nominal_value : R;
  coupons : coupons_dict;
  market_rate : R;
  passed_units : R;
  pending_units : R;
  lsp : option (list R);
  dirty_price : option R;
  delayed_interest : option R;
  clean_price : option R;
  duration : option R
}.

Definition set_lsp (l : list R) (self : obj) : obj :=
  mk (nominal_value self) (coupons self) (market_rate self) (passed_units self)
     (pending_units self) (Some l) (dirty_price self) (delayed_interest self)
     (clean_price self) (duration self).

Definition set_dirty_price (x : R) (self : obj) : obj :=
  mk (nominal_value self) (coupons self) (market_rate self) (passed_units self)
     (pending_units self) (lsp self) (Some x) (delayed_interest self)
     (clean_price self) (duration self).

Definition set_delayed_interest (x : R) (self : obj) : obj :=
  mk (nominal_value self) (coupons self) (market_rate self) (passed_units self)
     (pending_units self) (lsp self) (dirty_price self) (Some x)
     (clean_price self) (duration self).

Definition set_clean_price (x : R) (self : obj) : obj :=
  mk (nominal_value self) (coupons self) (market_rate self) (passed_units self)
     (pending_units self) (lsp self) (dirty_price self) (delayed_interest self)
     (Some x) (duration self).

Definition set_duration (x : R) (self : obj) : obj :=
  mk (nominal_value self) (coupons self) (market_rate self) (passed_units self)
     (pending_units self) (lsp self) (dirty_price self) (delayed_interest self)
     (clean_price self) (Some x).

(** [Bonds(nominal_value, {'delta_periods':..., 'interest_rate':...},
    market_rate, time2maturity)] *)
Definition init (nominal_value_ delta_periods_ interest_rate_
                 market_rate_ time2maturity : R) : outcome obj :=
  let value_ := nominal_value_ * delta_periods_ * interest_rate_ / 360 in
  pending <- pydiv time2maturity delta_periods_ ;;
  let integer := pyint pending in
  let float := pending - IZR integer in
  let c := mk_coupons delta_periods_ interest_rate_ value_ pending integer float in
  Ret (mk nominal_value_ c market_rate_
          (delta_periods_ * (1 - float)) (float * delta_periods_)
          None None None None None).

(** The [for i in range(integer_coupons)] loop of [dirtyPrice]: [k]
    rounds are left, [j = i + 1], [acc] is [present_value_list]. *)
Fixpoint dirtyPrice_loop (self : obj) (k : nat) (j : Z) (acc : list R)
    : outcome (list R) :=
  match k with
  | O => Ret acc
  | S k' =>
      let cash :=
        if Z.eqb j (integer_coupons (coupons self))
        then value (coupons self) + nominal_value self
        else value (coupons self) in
      pv <- presetValue cash
              (delta_periods (coupons self) * market_rate self / 360) (IZR j) ;;
      dirtyPrice_loop self k' (j + 1)%Z (acc ++ [pv])
  end.

(** [sum(xs)] *)
Definition pysum (xs : list R) : R := fold_left Rplus xs 0.

Definition dirtyPrice : meth obj R :=
  present_value_list <~
    mread (fun self =>
             dirtyPrice_loop self (Z.to_nat (integer_coupons (coupons self))) 1 []) ;;
  _ <~ massign (set_lsp present_value_list) ;;
  let present_value := pysum present_value_list in
  mread (fun self =>
           if py_eq (float_coupons (coupons self)) 0 then Ret present_value
           else Ret (present_value + value (coupons self))).

Definition cleanPrice : meth obj R :=
  dp <~ dirtyPrice ;;
  _ <~ massign (set_dirty_price dp) ;;
  fun self =>
    if py_eq (float_coupons (coupons self)) 0 then (Ret dp, self)
    else
      (value_at_passed <~
         mread (fun self =>
                  e <- pydiv (pending_units self) (delta_periods (coupons self)) ;;
                  p <- pypow (1 + delta_periods (coupons self) * market_rate self / 360) e ;;
                  pydiv dp p) ;;
       let di := nominal_value self * interest_rate (coupons self)
                 * passed_units self / 360 in
       _ <~ massign (set_delayed_interest di) ;;
       _ <~ massign (set_clean_price (value_at_passed - di)) ;;
       mret (value_at_passed - di)) self.

(** The loop of [getDuration] over [self.lsp], from the running
    [duration] and counter [c]. *)
Fixpoint getDuration_loop (self : obj) (l : list R) (duration_ : R) (c : Z) : R :=
  match l with
  | [] => duration_
  | x :: l' =>
      getDuration_loop self l'
        (duration_ + IZR c * delta_periods (coupons self) * x / 360) (c + 1)%Z
  end.

Definition getDuration : meth obj R :=
  l <~ mread (fun self => match lsp self with
                          | Some l => Ret l
                          | None => Raise AttributeError
                          end) ;;
  duration_ <~ mread (fun self => Ret (getDuration_loop self l 0 1)) ;;
  cp <~ cleanPrice ;;
  d <~ mread (fun _ => pydiv duration_ cp) ;;
  _ <~ massign (set_duration d) ;;
  mret d.

Definition getSensibility : meth obj R :=
  d <~ getDuration ;;
  mread (fun self => pydiv d (1 + market_rate self)).

End Bonds.

(** ** Specification-side definitions and example data *)

(** What the balance algorithm is said to compute, in the words of the
    specification: every valid payment is future-valued to maturity at
    the daily discount rate, and the results are added up. *)
Definition future_valued (strptime : string -> option Z) (self : debt.obj)
    (p : debt.payment) : outcome R :=
  _delta <- debt.daysToGo strptime self (debt.RefStr (debt.date p)) ;;
  dr <- debt.discountRate self (CapStr "daily") ;;
  futureValue (debt.amount p) dr (IZR _delta).

Fixpoint sum_outcomes (cs : list (outcome R)) : outcome R :=
  match cs with
  | [] => Ret 0
  | c :: cs' => x <- c ;; s <- sum_outcomes cs' ;; Ret (x + s)
  end.

Definition valid_payments_sum (strptime : string -> option Z) (self : debt.obj)
    : outcome R :=
  sum_outcomes (map (future_valued strptime self) (filter debt.valid (debt.payments self))).

(** [invalidPayments] called on each id of a list, in order; the same for
    [deleteInvalidPayment]. *)
Definition invalidate_each (ids : list Z) (self : debt.obj) : debt.obj :=
  fold_left debt.invalidPayments ids self.

Definition restore_each (ids : list Z) (self : debt.obj) : debt.obj :=
  fold_left debt.deleteInvalidPayment ids self.

(** What [invalidPayments] does to one payment, given the ids recorded. *)
Definition flagged (ids : list Z) (p : debt.payment) : debt.payment :=
  if debt.mem (debt.id p) ids then debt.set_valid false p else p.

(** What [deleteInvalidPayment] does to one payment. *)
Definition restored (x : Z) (p : debt.payment) : debt.payment :=
  if Z.eqb (debt.id p) x then debt.set_valid true p else p.

(** A finite part of the graph of [strptime] with ['%b %d %Y'], as day
    numbers ([date.toordinal]), for the examples. *)
Definition strptime_sample (s : string) : option Z :=
  dict_get [("Jan 01 2021", 737791%Z); ("Jul 01 2021", 737972%Z);
            ("Jan 01 2022", 738156%Z)] s.

(** A ledger issued on Jan 01 2021 and due on Jan 01 2022 at 12 percent
    compounded monthly, as [__init__] leaves it on the day [today]: no
    payment yet, no status yet, discounted at 7 percent for the 28 day
    tenor.  [__init__] derives the final capital from the capital
    (11286.95 for 10000, -112.87 for -100). *)
Definition sample_ledger (today : Z) (capital_ final_capital_ : R) : debt.obj :=
  debt.mk [] [] 737791 738156 today capital_
          (interest_rate.mk (mk_rate_dict 0.12 12)) final_capital_
          (interest_rate.mk (mk_rate_dict (7 / 100) (360 / 28))) None.

(** The amounts of the valid payments of a list, added up. *)
Definition valid_amounts (ps : list debt.payment) : R :=
  fold_right (fun p acc => if debt.valid p then debt.amount p + acc else acc) 0 ps.

(** The sample ledger on Jun 30 2021, after two payments dated on the
    maturity date were registered. *)
Definition ledger_paid_twice : debt.obj :=
  debt.registerPayment "Jun 30 2021"
    (debt.registerPayment "Jun 30 2021" (sample_ledger 737971 10000 11286.95)
       1000 "Jan 01 2022")
    2000 "Jan 01 2022".

(** ... and after the second payment was invalidated. *)
Definition ledger_one_invalid : debt.obj :=
  debt.invalidPayments ledger_paid_twice 2.

(** ... and after every payment was invalidated and then restored. *)
Definition ledger_swept : debt.obj :=
  restore_each (map debt.id (debt.payments ledger_one_invalid))
    (invalidate_each (map debt.id (debt.payments ledger_one_invalid)) ledger_one_invalid).

(** The sample ledger after a payment was registered and invalidated and
    the payments were reset. *)
Definition ledger_after_reset : debt.obj :=
  debt.resetPayments
    (debt.invalidPayments
       (debt.registerPayment "Jun 30 2021" (sample_ledger 737971 10000 11286.95)
          1000 "now")
       1).

(** ... and after a new payment was registered. *)
Definition ledger_repaid : debt.obj :=
  debt.registerPayment "Jul 01 2021" ledger_after_reset 500 "now".

(** The bond of the example: nominal value 100, a coupon every 182 days
    at 8.2 percent, market rate 8.5 percent, 100 days to maturity, as
    [__init__] leaves it. *)
Definition sample_bond : Bonds.obj :=
  Bonds.mk 100
    (Bonds.mk_coupons 182 0.082 (100 * 182 * 0.082 / 360) (100 / 182) 0
       (100 / 182 - IZR 0))
    0.085 (182 * (1 - (100 / 182 - IZR 0))) ((100 / 182 - IZR 0) * 182)
    None None None None None.

(** An evaluation that, when it raises, raises ZeroDivisionError. *)
Definition only_zero_division {A : Type} (o : outcome A) : Prop :=
  forall e : pyexn, o = Raise e -> e = ZeroDivisionError.

(** A table of reference rates as the fetch returns it, in percent, for
    the examples. *)
Definition cetes_sample : list (Z * R) :=
  [(28%Z, 7); (91%Z, 7.2); (182%Z, 7.5)].

(** The ids of a payment list are 1, 2, ... in order. *)
Definition numbered (ps : list debt.payment) : Prop :=
  map debt.id ps = map Z.of_nat (seq 1 (length ps)).

(** Every payment whose id is recorded as invalid has its flag down. *)
Definition consistent (s : debt.obj) : Prop :=
  forall p, In p (debt.payments s) ->
            debt.mem (debt.id p) (debt.invalid_payments s) = true ->
            debt.valid p = false.

(** The daily discount rate of the sample ledgers. *)
Definition sample_daily_rate : R :=
  Rpower (1 + 7 / 100 / (360 / 28)) (360 / 28 / 360) - 1.

(** The ledger with two payments after a third one was registered. *)
Definition ledger_paid_thrice : debt.obj :=
  debt.registerPayment "Jun 30 2021" ledger_paid_twice 500 "Jan 01 2022".

(** A bond with four whole coupon periods to maturity and a coupon rate
    equal to the market rate, as [__init__] leaves it. *)
Definition whole_coupon_bond : Bonds.obj :=
  Bonds.mk 100
    (Bonds.mk_coupons 182 0.085 (100 * 182 * 0.085 / 360) (728 / 182) 4
       (728 / 182 - IZR 4))
    0.085 (182 * (1 - (728 / 182 - IZR 4))) ((728 / 182 - IZR 4) * 182)
    None None None None None.

(** * Properties *)

(** ** Python arithmetic *)

Lemma bind_Ret {A B : Type} (a : A) (k : A -> outcome B) :
  bind (Ret a) k = k a.
Proof. reflexivity. Qed.

Lemma pydiv_nonzero (x y : R) : y <> 0 -> pydiv x y = Ret (x / y).
Proof.
  intros Hy. unfold pydiv. destruct (Req_dec_T y 0) as [E | _]; [contradiction | reflexivity].
Qed.

Lemma pydiv_zero (x : R) : pydiv x 0 = Raise ZeroDivisionError.
Proof.
  unfold pydiv. destruct (Req_dec_T 0 0) as [_ | N]; [reflexivity | now elim N].
Qed.

Lemma pypow_pos (x y : R) : 0 < x -> pypow x y = Ret (Rpower x y).
Proof.
  intros Hx. unfold pypow.
  destruct (total_order_T 0 x) as [[_ | E] | L]; [reflexivity | lra | lra].
Qed.

Lemma Int_part_IZR (z : Z) : Int_part (IZR z) = z.
Proof. symmetry. apply Int_part_spec. lra. Qed.


(** [x ** 0] is 1 for every base. *)
Lemma pypow_zero_exponent (x : R) : pypow x 0 = Ret 1.
Proof.
  unfold pypow. destruct (total_order_T 0 x) as [[L | E] | L].
  - now rewrite Rpower_O.
  - destruct (Rlt_dec 0 0) as [F | _]; [lra | ].
    destruct (Req_dec_T 0 0) as [_ | N]; [reflexivity | now elim N].
  - change 0 with (IZR 0). unfold integral. rewrite Int_part_IZR.
    destruct (Req_dec_T (IZR 0) (IZR 0)) as [_ | N]; [reflexivity | now elim N].
Qed.

Lemma py_lt_true (x y : R) : x < y -> py_lt x y = true.
Proof. intros H. unfold py_lt. destruct (Rlt_dec x y); [reflexivity | contradiction]. Qed.

Lemma py_lt_false (x y : R) : y <= x -> py_lt x y = false.
Proof. intros H. unfold py_lt. destruct (Rlt_dec x y); [lra | reflexivity]. Qed.

Lemma py_eq_true (x : R) : py_eq x x = true.
Proof. unfold py_eq. destruct (Req_dec_T x x) as [_ | N]; [reflexivity | now elim N]. Qed.

Lemma py_eq_false (x y : R) : x <> y -> py_eq x y = false.
Proof. intros H. unfold py_eq. destruct (Req_dec_T x y); [contradiction | reflexivity]. Qed.

(** ** Rate algebra *)

(** The conversion between two frequencies and back, for real-valued
    frequencies: it needs the base [1 + r / f1] to be positive. *)
Lemma equivalentRate_there_and_back (r f1 f2 : R) :
  0 < f1 -> 0 < f2 -> 0 < 1 + r / f1 ->
  equivalentRate r f1 f2 = Ret (f2 * (Rpower (1 + r / f1) (f1 / f2) - 1)) /\
  equivalentRate (f2 * (Rpower (1 + r / f1) (f1 / f2) - 1)) f2 f1 = Ret r.
Proof.
  intros H1 H2 Hb.
  assert (N1 : f1 <> 0) by lra. assert (N2 : f2 <> 0) by lra.
  split.
  - unfold equivalentRate.
    rewrite (pydiv_nonzero r f1 N1), bind_Ret, (pydiv_nonzero f1 f2 N2), bind_Ret.
    now rewrite (pypow_pos _ _ Hb).
  - unfold equivalentRate.
    set (p := Rpower (1 + r / f1) (f1 / f2)).
    assert (Hp : 0 < p) by (unfold p, Rpower; apply exp_pos).
    rewrite (pydiv_nonzero _ f2 N2), bind_Ret, (pydiv_nonzero f2 f1 N1), bind_Ret.
    replace (1 + f2 * (p - 1) / f2) with p by (field; exact N2).
    rewrite (pypow_pos _ _ Hp), bind_Ret. unfold p.
    rewrite Rpower_mult.
    replace (f1 / f2 * (f2 / f1)) with 1 by (field; split; assumption).
    rewrite (Rpower_1 _ Hb). f_equal. field. exact N1.
Qed.

Lemma base_positive (r : R) (f : Z) : -1 < r -> (0 < f)%Z -> 0 < 1 + r / IZR f.
Proof.
  intros Hr Hf.
  assert (H1 : 1 <= IZR f) by (apply IZR_le; lia).
  assert (Hi : 0 < / IZR f <= 1).
  { split; [apply Rinv_0_lt_compat; lra | ].
    rewrite <- Rinv_1. apply Rinv_le_contravar; lra. }
  unfold Rdiv. destruct (Rle_dec 0 r) as [P | N]; nra.
Qed.

(** C6.  For a rate [r > -1] and positive (whole) frequencies [f1], [f2],
    converting [r] from [f1] to [f2] with [equivalentRate] and the result
    back from [f2] to [f1] returns [r] exactly. *)
Theorem equivalentRate_round_trip (r : R) (f1 f2 : Z) :
  -1 < r -> (0 < f1)%Z -> (0 < f2)%Z ->
  (e <- equivalentRate r (IZR f1) (IZR f2) ;; equivalentRate e (IZR f2) (IZR f1))
  = Ret r.
Proof.
  intros Hr H1 H2.
  destruct (equivalentRate_there_and_back r (IZR f1) (IZR f2)) as [E1 E2].
  - apply IZR_lt in H1. exact H1.
  - apply IZR_lt in H2. exact H2.
  - now apply base_positive.
  - rewrite E1, bind_Ret. exact E2.
Qed.

Lemma equivalentRate_round_trip_witness :
  -1 < 0.12 /\ (0 < 12)%Z /\ (0 < 360)%Z /\
  (e <- equivalentRate 0.12 (IZR 12) (IZR 360) ;; equivalentRate e (IZR 360) (IZR 12))
  = Ret 0.12.
Proof.
  split; [lra | split; [lia | split; [lia | ]]].
  apply equivalentRate_round_trip; [lra | lia | lia].
Defined.








(** ** class interest_rate *)

Lemma get_aux_cont : interest_rate.get_aux (CapStr "cont") = Ret (Some Inf).
Proof. reflexivity. Qed.

(** [float('inf')] is the table's value for ['cont'] only, so the [inf]
    branches of [annualRate] and [rate] are not reached past the
    ['cont'] test. *)
Lemma aux_inf_only_cont (cd : cap_desc) :
  interest_rate.get_aux cd = Ret (Some Inf) -> interest_rate.is_cont cd = true.
Proof.
  destruct cd as [s | n | ]; cbn [interest_rate.get_aux interest_rate.is_cont];
    try discriminate.
  unfold interest_rate.cap_options. cbn [dict_get].
  repeat match goal with
         | |- context [String.eqb ?a s] =>
             destruct (String.eqb a s) eqn:?; try discriminate
         end.
  intros _. rewrite String.eqb_sym. assumption.
Qed.

(** C1 (the code at every input).  [annualRate('cont')] calls
    [contEquivalentRate], a name the module never binds, so the call
    raises NameError for every rate object; [rate('cont')] returns what
    [annualRate('cont')] returns and raises with it.  No continuous rate
    is ever returned. *)
Theorem continuous_rate_raises_NameError (self : interest_rate.obj) :
  interest_rate.annualRate self (CapStr "cont") = Raise NameError /\
  interest_rate.rate self (CapStr "cont") = Raise NameError.
Proof.
  assert (Ha : interest_rate.annualRate self (CapStr "cont") = Raise NameError).
  { unfold interest_rate.annualRate. rewrite get_aux_cont, bind_Ret.
    change (interest_rate.is_cont (CapStr "cont")) with true. cbv iota.
    reflexivity. }
  split; [exact Ha | ].
  unfold interest_rate.rate. rewrite get_aux_cont, bind_Ret.
  change (interest_rate.is_cont (CapStr "cont")) with true. cbv iota.
  exact Ha.
Qed.

(** ** class debt *)

(** C4 (the code at every input).  [simulate] looks up [self.rate], which
    a [debt] object does not have (the rate object is [self.i]), so every
    call raises AttributeError and no projection is returned. *)
Theorem simulate_raises (self : debt.obj) (periods : R) (cd : cap_desc)
    (initial_capital : debt.capital_arg) :
  debt.simulate self periods cd initial_capital = Raise AttributeError.
Proof. reflexivity. Qed.

Section LedgerProperties.

Variable strptime : string -> option Z.

(** The balance reads four attributes: the payments, the final
    capital, the maturity date and the discount rate. *)
Lemma actualFinalDebt_loop_ext (s s' : debt.obj) (ps : list debt.payment) (t : R) :
  debt.final_date s = debt.final_date s' ->
  debt.discount_rate s = debt.discount_rate s' ->
  debt.actualFinalDebt_loop strptime s ps t
  = debt.actualFinalDebt_loop strptime s' ps t.
Proof.
  intros Hf Hd. revert t.
  induction ps as [| p ps IH]; intros t; [reflexivity | ].
  cbn [debt.actualFinalDebt_loop].
  destruct (negb (debt.valid p)); [apply IH | ].
  unfold debt.daysToGo, debt.discountRate. rewrite Hf, Hd.
  destruct (strptime (debt.date p)); [ | reflexivity].
  rewrite !bind_Ret.
  destruct (interest_rate.rate _ _); [ | reflexivity | reflexivity].
  rewrite !bind_Ret.
  destruct (futureValue _ _ _); [ | reflexivity | reflexivity].
  rewrite !bind_Ret. apply IH.
Qed.

Lemma actualFinalDebt_ext (s s' : debt.obj) :
  debt.payments s = debt.payments s' ->
  debt.final_capital s = debt.final_capital s' ->
  debt.final_date s = debt.final_date s' ->
  debt.discount_rate s = debt.discount_rate s' ->
  debt.actualFinalDebt strptime s = debt.actualFinalDebt strptime s'.
Proof.
  intros Hp Hc Hf Hd. unfold debt.actualFinalDebt.
  rewrite Hp, Hc, (actualFinalDebt_loop_ext s s' _ _ Hf Hd). reflexivity.
Qed.

(** On the maturity date, with a positive balance, none of the three
    tests of [status] assigns [debt_status]: the method answers with
    the value left by an earlier call, and fails when there was none. *)
Lemma status_on_maturity_date (self : debt.obj) (b : R) :
  debt.actual_date self = debt.final_date self ->
  debt.actualFinalDebt strptime self = Ret b ->
  0 < b ->
  debt.status strptime self
  = (match debt.debt_status self with
     | Some st => Ret st
     | None => Raise AttributeError
     end, self).
Proof.
  intros Hd Hb Hpos.
  unfold debt.status, mbind, mread, debt.daysToGo.
  rewrite Hd, Z.sub_diag, Hb.
  rewrite py_eq_false by lra.
  reflexivity.
Qed.

(** Away from the maturity date [status] is as described: Done for a
    zero balance, Overdue for a positive balance past maturity, Active
    for a positive balance before maturity. *)
Lemma status_away_from_maturity (self : debt.obj) (b : R) :
  debt.actualFinalDebt strptime self = Ret b ->
  (b = 0 -> fst (debt.status strptime self) = Ret "Done.") /\
  (0 < b -> (debt.final_date self < debt.actual_date self)%Z ->
   fst (debt.status strptime self) = Ret "Overdue.") /\
  (0 < b -> (debt.actual_date self < debt.final_date self)%Z ->
   fst (debt.status strptime self) = Ret "Active.").
Proof.
  intros Hb.
  assert (Hset : forall st s, debt.actualFinalDebt strptime (debt.set_debt_status st s)
                              = debt.actualFinalDebt strptime s)
    by (intros; apply actualFinalDebt_ext; reflexivity).
  repeat split.
  - intros E. subst b.
    unfold debt.status, mbind, mread, debt.daysToGo. rewrite Hb, py_eq_true.
    cbn [mwhen massign].
    destruct (_ <? 0)%Z, (_ >? 0)%Z; cbn beta iota;
      rewrite ?Hset, ?Hb; cbn [mret mwhen];
      rewrite ?(py_lt_false 0 0) by lra; cbn [mret mwhen];
      rewrite ?Hset, ?Hb; cbn [mret mwhen];
      rewrite ?(py_lt_false 0 0) by lra; reflexivity.
  - intros Hpos Hlt.
    unfold debt.status, mbind, mread, debt.daysToGo. rewrite Hb.
    rewrite py_eq_false by lra. cbn [mwhen mret].
    replace (_ <? 0)%Z with true by (symmetry; apply Z.ltb_lt; lia).
    replace (_ >? 0)%Z with false by (symmetry; rewrite Z.gtb_ltb; apply Z.ltb_ge; lia).
    cbn beta iota. rewrite Hb. cbn [mret].
    rewrite py_lt_true by lra. reflexivity.
  - intros Hpos Hlt.
    unfold debt.status, mbind, mread, debt.daysToGo. rewrite Hb.
    rewrite py_eq_false by lra. cbn [mwhen mret].
    replace (_ <? 0)%Z with false by (symmetry; apply Z.ltb_ge; lia).
    replace (_ >? 0)%Z with true by (symmetry; rewrite Z.gtb_ltb; apply Z.ltb_lt; lia).
    cbn beta iota. cbn [mret mwhen]. rewrite Hb. cbn [mret].
    rewrite py_lt_true by lra. reflexivity.
Qed.

End LedgerProperties.

(** C2 (the code at the failing input).  A ledger with no payment and a
    positive balance, asked for its status on its maturity date for the
    first time: no test of [status] matches, [debt_status] was never
    assigned, and the call raises AttributeError instead of answering
    Active. *)
Theorem status_on_maturity_date_fails :
  debt.actual_date (sample_ledger 738156 10000 11286.95) = debt.final_date (sample_ledger 738156 10000 11286.95) /\
  debt.actualFinalDebt strptime_sample (sample_ledger 738156 10000 11286.95) = Ret 11286.95 /\
  debt.status strptime_sample (sample_ledger 738156 10000 11286.95)
  = (Raise AttributeError, sample_ledger 738156 10000 11286.95).
Proof.
  split; [reflexivity | split; [reflexivity | ]].
  apply (status_on_maturity_date strptime_sample (sample_ledger 738156 10000 11286.95) 11286.95);
    [reflexivity | reflexivity | lra].
Qed.

(** ** The balance of a ledger *)

Section LedgerBalance.

Variable strptime : string -> option Z.

(** The loop of [actualFinalDebt] adds to its running total the sum of
    the future-valued valid payments. *)
Lemma actualFinalDebt_loop_sum (self : debt.obj) (ps : list debt.payment) (t : R) :
  debt.actualFinalDebt_loop strptime self ps t
  = (s <- sum_outcomes (map (future_valued strptime self) (filter debt.valid ps)) ;;
     Ret (t + s)).
Proof.
  revert t. induction ps as [| p ps IH]; intros t.
  - cbn. f_equal. lra.
  - cbn [debt.actualFinalDebt_loop filter].
    destruct (debt.valid p); cbn [negb map sum_outcomes]; [ | apply IH].
    unfold future_valued at 1.
    destruct (debt.daysToGo strptime self _) as [d | e | ]; [ | reflexivity | reflexivity].
    rewrite !bind_Ret.
    destruct (debt.discountRate self _) as [dr | e | ]; [ | reflexivity | reflexivity].
    rewrite !bind_Ret.
    destruct (futureValue _ dr _) as [fv | e | ]; [ | reflexivity | reflexivity].
    rewrite !bind_Ret, IH.
    destruct (sum_outcomes _) as [s | e | ]; [ | reflexivity | reflexivity].
    cbn. f_equal. lra.
Qed.

(** C3 (amended).  A ledger with no payment has [final_capital] as its
    balance.  A ledger with at least one payment, or with a final
    capital that is not negative, has the balance
    [max 0 (final_capital - sum)], where [sum] adds the valid payments
    future-valued to maturity at the daily discount rate; a negative
    net amount is then returned as 0. *)
Theorem actualFinalDebt_floor (self : debt.obj) :
  (debt.payments self = [] ->
   debt.actualFinalDebt strptime self = Ret (debt.final_capital self)) /\
  (forall t : R,
     valid_payments_sum strptime self = Ret t ->
     debt.payments self <> [] \/ 0 <= debt.final_capital self ->
     debt.actualFinalDebt strptime self = Ret (Rmax 0 (debt.final_capital self - t)) /\
     (debt.final_capital self - t < 0 -> debt.actualFinalDebt strptime self = Ret 0)).
Proof.
  split.
  - intros E. unfold debt.actualFinalDebt. now rewrite E.
  - intros t Ht Hdom.
    assert (Hmax : debt.actualFinalDebt strptime self
                   = Ret (Rmax 0 (debt.final_capital self - t))).
    { unfold debt.actualFinalDebt, valid_payments_sum in *.
      destruct (debt.payments self) as [| p ps] eqn:E.
      - cbn in Ht. injection Ht as <-.
        destruct Hdom as [N | Hc]; [now elim N | ].
        f_equal. rewrite Rminus_0_r. symmetry. now apply Rmax_right.
      - rewrite actualFinalDebt_loop_sum, Ht. cbn [bind].
        replace (0 + t) with t by lra.
        unfold py_lt. destruct (Rlt_dec (debt.final_capital self - t) 0) as [L | G].
        + f_equal. symmetry. apply Rmax_left. lra.
        + f_equal. symmetry. apply Rmax_right. lra. }
    split; [exact Hmax | ].
    intros L. rewrite Hmax. f_equal. apply Rmax_left. lra.
Qed.

(** *** Invalidating and restoring payments *)

Lemma invalidPayments_payments (s : debt.obj) (x : Z) :
  debt.payments (debt.invalidPayments s x)
  = map (flagged (debt.invalid_payments s ++ [x])) (debt.payments s).
Proof.
  destruct s as [ps ip d0 d1 d2 c r fc dr st].
  unfold debt.invalidPayments. destruct ps; reflexivity.
Qed.

Lemma invalidPayments_invalid (s : debt.obj) (x : Z) :
  debt.invalid_payments (debt.invalidPayments s x) = debt.invalid_payments s ++ [x].
Proof.
  destruct s as [ps ip d0 d1 d2 c r fc dr st].
  unfold debt.invalidPayments. destruct ps; reflexivity.
Qed.

Lemma deleteInvalidPayment_payments (s : debt.obj) (x : Z) :
  debt.payments (debt.deleteInvalidPayment s x) = map (restored x) (debt.payments s).
Proof.
  destruct s as [ps ip d0 d1 d2 c r fc dr st].
  unfold debt.deleteInvalidPayment. destruct ps; reflexivity.
Qed.

Lemma mem_app (x : Z) (l1 l2 : list Z) :
  debt.mem x (l1 ++ l2) = debt.mem x l1 || debt.mem x l2.
Proof. apply existsb_app. Qed.

Lemma mem_In (x : Z) (l : list Z) : In x l -> debt.mem x l = true.
Proof.
  intros H. apply existsb_exists. exists x. split; [exact H | apply Z.eqb_refl].
Qed.

Lemma flagged_flagged (l1 l2 : list Z) (p : debt.payment) :
  flagged (l1 ++ l2) (flagged l1 p) = flagged (l1 ++ l2) p.
Proof.
  unfold flagged. destruct (debt.mem (debt.id p) l1) eqn:E; [ | reflexivity].
  cbn [debt.id debt.set_valid]. rewrite mem_app, E. reflexivity.
Qed.

Lemma invalidate_each_payments (ids : list Z) :
  ids <> [] ->
  forall s : debt.obj,
    debt.payments (invalidate_each ids s)
    = map (flagged (debt.invalid_payments s ++ ids)) (debt.payments s).
Proof.
  induction ids as [| x ids IH]; intros N s; [now elim N | ].
  unfold invalidate_each in *. cbn [fold_left].
  destruct ids as [| y ids].
  - cbn [fold_left]. apply invalidPayments_payments.
  - rewrite IH by discriminate.
    rewrite invalidPayments_payments, invalidPayments_invalid, map_map.
    rewrite <- app_assoc. cbn [app].
    apply map_ext. intros p.
    change (x :: y :: ids) with ([x] ++ y :: ids). rewrite app_assoc.
    apply flagged_flagged.
Qed.

Lemma restore_each_payments (ids : list Z) (s : debt.obj) :
  debt.payments (restore_each ids s)
  = map (fun p => fold_left (fun q x => restored x q) ids p) (debt.payments s).
Proof.
  revert s. induction ids as [| x ids IH]; intros s.
  - cbn. symmetry. apply map_id.
  - unfold restore_each in *. cbn [fold_left].
    rewrite IH, deleteInvalidPayment_payments, map_map. reflexivity.
Qed.

Lemma restored_valid (ids : list Z) (p : debt.payment) :
  debt.valid p = true ->
  fold_left (fun q x => restored x q) ids p = p.
Proof.
  intros Hv. induction ids as [| x ids IH]; [reflexivity | ].
  cbn [fold_left]. unfold restored at 2.
  destruct (Z.eqb (debt.id p) x); [ | exact IH].
  replace (debt.set_valid true p) with p; [exact IH | ].
  destruct p as [a b c v]. cbn in Hv. subst v. reflexivity.
Qed.

Lemma restored_In (ids : list Z) (p : debt.payment) :
  In (debt.id p) ids ->
  fold_left (fun q x => restored x q) ids p = debt.set_valid true p.
Proof.
  revert p. induction ids as [| x ids IH]; intros p Hin; [contradiction | ].
  cbn [fold_left]. unfold restored at 2.
  destruct (Z.eqb (debt.id p) x) eqn:E.
  - apply restored_valid. reflexivity.
  - apply IH. destruct Hin as [Hx | Hin]; [ | exact Hin].
    apply Z.eqb_neq in E. now elim E.
Qed.

(** The two sweeps change neither the final capital, nor the maturity
    date, nor the discount rate. *)
Lemma invalidate_each_fields (ids : list Z) (s : debt.obj) :
  debt.final_capital (invalidate_each ids s) = debt.final_capital s /\
  debt.final_date (invalidate_each ids s) = debt.final_date s /\
  debt.discount_rate (invalidate_each ids s) = debt.discount_rate s.
Proof.
  revert s. induction ids as [| x ids IH]; intros s; [now repeat split | ].
  unfold invalidate_each in *. cbn [fold_left].
  destruct (IH (debt.invalidPayments s x)) as (-> & -> & ->).
  destruct s as [ps ip d0 d1 d2 c r fc dr st].
  unfold debt.invalidPayments. destruct ps; now repeat split.
Qed.

Lemma restore_each_fields (ids : list Z) (s : debt.obj) :
  debt.final_capital (restore_each ids s) = debt.final_capital s /\
  debt.final_date (restore_each ids s) = debt.final_date s /\
  debt.discount_rate (restore_each ids s) = debt.discount_rate s.
Proof.
  revert s. induction ids as [| x ids IH]; intros s; [now repeat split | ].
  unfold restore_each in *. cbn [fold_left].
  destruct (IH (debt.deleteInvalidPayment s x)) as (-> & -> & ->).
  destruct s as [ps ip d0 d1 d2 c r fc dr st].
  unfold debt.deleteInvalidPayment. destruct ps; now repeat split.
Qed.

(** Invalidating every payment by its id leaves every flag down. *)
Lemma invalidate_all_payments (s : debt.obj) :
  debt.payments (invalidate_each (map debt.id (debt.payments s)) s)
  = map (debt.set_valid false) (debt.payments s).
Proof.
  destruct (debt.payments s) as [| p ps] eqn:E; [cbn; now rewrite E | ].
  rewrite invalidate_each_payments by discriminate.
  rewrite E. apply map_ext_in. intros q Hq.
  unfold flagged.
  rewrite mem_app, (mem_In (debt.id q) (map debt.id (p :: ps))), orb_true_r;
    [reflexivity | ].
  now apply in_map.
Qed.

Lemma loop_no_valid (self : debt.obj) (ps : list debt.payment) (t : R) :
  debt.actualFinalDebt_loop strptime self (map (debt.set_valid false) ps) t = Ret t.
Proof.
  induction ps as [| p ps IH]; [reflexivity | exact IH].
Qed.

(** C7 (amended).  On a ledger with at least one payment, invalidating
    every payment by its id makes the balance equal to [final_capital]
    when the final capital is not negative; if every payment was valid
    beforehand, restoring every one of them then brings the payments,
    and with them the balance, back to what they were. *)
Theorem invalidate_then_restore (self : debt.obj) :
  debt.payments self <> [] ->
  (0 <= debt.final_capital self ->
   debt.actualFinalDebt strptime
     (invalidate_each (map debt.id (debt.payments self)) self)
   = Ret (debt.final_capital self)) /\
  (forallb debt.valid (debt.payments self) = true ->
   debt.payments
     (restore_each (map debt.id (debt.payments self))
        (invalidate_each (map debt.id (debt.payments self)) self))
   = debt.payments self /\
   debt.actualFinalDebt strptime
     (restore_each (map debt.id (debt.payments self))
        (invalidate_each (map debt.id (debt.payments self)) self))
   = debt.actualFinalDebt strptime self).
Proof.
  intros Hne.
  set (ids := map debt.id (debt.payments self)).
  destruct (invalidate_each_fields ids self) as (Hc & Hf & Hd).
  pose proof (invalidate_all_payments self) as Hp. fold ids in Hp.
  split.
  - intros Hpos. unfold debt.actualFinalDebt. rewrite Hp, Hc.
    destruct (debt.payments self) as [| p ps]; [now elim Hne | ].
    cbn [map]. change (debt.set_valid false p :: map (debt.set_valid false) ps)
      with (map (debt.set_valid false) (p :: ps)).
    rewrite loop_no_valid, bind_Ret, Rminus_0_r.
    rewrite py_lt_false by exact Hpos. reflexivity.
  - intros Hv.
    assert (Hback : debt.payments (restore_each ids (invalidate_each ids self))
                    = debt.payments self).
    { rewrite restore_each_payments, Hp, map_map.
      rewrite <- (map_id (debt.payments self)) at 2.
      apply map_ext_in. intros q Hq.
      rewrite restored_In by (cbn [debt.id debt.set_valid]; unfold ids; now apply in_map).
      rewrite forallb_forall in Hv. specialize (Hv q Hq).
      destruct q as [a b c v]. cbn in Hv. subst v. reflexivity. }
    split; [exact Hback | ].
    destruct (restore_each_fields ids (invalidate_each ids self)) as (Hc' & Hf' & Hd').
    apply actualFinalDebt_ext; congruence.
Qed.

End LedgerBalance.

(** ** Ledgers at work *)

Lemma get_aux_daily : interest_rate.get_aux (CapStr "daily") = Ret (Some (Per 360)).
Proof. reflexivity. Qed.

(** The daily discount rate of a ledger whose discount rate has a
    positive base. *)
Lemma discountRate_daily (self : debt.obj) (r c : R) :
  interest_rate.reference_rate (debt.discount_rate self) = mk_rate_dict r c ->
  c <> 0 -> 0 < 1 + r / c ->
  debt.discountRate self (CapStr "daily") = Ret (Rpower (1 + r / c) (c / 360) - 1).
Proof.
  intros E Hc Hb.
  unfold debt.discountRate, interest_rate.rate, interest_rate.annualRate.
  rewrite get_aux_daily, !bind_Ret, E.
  change (interest_rate.is_cont (CapStr "daily")) with false. cbv iota.
  cbn [dict_rate dict_cap]. unfold equivalentRate.
  rewrite (pydiv_nonzero r c Hc), bind_Ret.
  rewrite (pydiv_nonzero c 360) by lra. rewrite bind_Ret.
  rewrite (pypow_pos _ _ Hb), !bind_Ret.
  rewrite pydiv_nonzero by lra. f_equal. field.
Qed.

(** The loop of [actualFinalDebt] over payments dated on the maturity
    date: each valid one counts for its amount. *)
Lemma loop_at_maturity (strptime : string -> option Z) (self : debt.obj) (dr : R)
    (ps : list debt.payment) (t : R) :
  debt.discountRate self (CapStr "daily") = Ret dr ->
  (forall p, In p ps -> strptime (debt.date p) = Some (debt.final_date self)) ->
  debt.actualFinalDebt_loop strptime self ps t = Ret (t + valid_amounts ps).
Proof.
  intros Hdr. revert t. induction ps as [| p ps IH]; intros t Hd.
  - cbn. f_equal. lra.
  - cbn [debt.actualFinalDebt_loop valid_amounts fold_right].
    assert (Hps : forall q, In q ps -> strptime (debt.date q) = Some (debt.final_date self))
      by (intros q Hq; apply Hd; now right).
    destruct (debt.valid p); cbn [negb].
    + unfold debt.daysToGo. rewrite (Hd p) by now left.
      rewrite bind_Ret, Hdr, bind_Ret, Z.sub_diag.
      unfold futureValue. rewrite pypow_zero_exponent, !bind_Ret.
      rewrite IH by exact Hps. f_equal. fold (valid_amounts ps). lra.
    + rewrite IH by exact Hps. reflexivity.
Qed.

Lemma sample_dates (p : debt.payment) (ps : list debt.payment) :
  Forall (fun q => debt.date q = "Jan 01 2022") ps ->
  In p ps -> strptime_sample (debt.date p) = Some 738156%Z.
Proof.
  intros HF Hin. rewrite Forall_forall in HF. now rewrite (HF p Hin).
Qed.

(** The balance of a sample ledger whose payments are all dated on the
    maturity date and do not exceed the final capital. *)
Lemma sample_balance (self : debt.obj) :
  debt.payments self <> [] ->
  debt.final_date self = 738156%Z ->
  debt.discount_rate self = interest_rate.mk (mk_rate_dict (7 / 100) (360 / 28)) ->
  Forall (fun q => debt.date q = "Jan 01 2022") (debt.payments self) ->
  valid_amounts (debt.payments self) <= debt.final_capital self ->
  debt.actualFinalDebt strptime_sample self
  = Ret (debt.final_capital self - valid_amounts (debt.payments self)).
Proof.
  intros Hne Hf Hd Hdates Hle.
  unfold debt.actualFinalDebt.
  destruct (debt.payments self) as [| p ps] eqn:E; [now elim Hne | ].
  rewrite (loop_at_maturity strptime_sample self
             (Rpower (1 + 7 / 100 / (360 / 28)) (360 / 28 / 360) - 1)).
  - rewrite bind_Ret, Rplus_0_l. rewrite py_lt_false by lra. reflexivity.
  - apply discountRate_daily; [now rewrite Hd | lra | lra].
  - intros q Hq. rewrite Hf. now apply (sample_dates q (p :: ps)).
Qed.

(** C3 (as stated, refuted).  A ledger with no payment and a negative
    final capital (a negative capital at construction): the balance is
    the negative final capital, not [max 0 (final_capital - 0)]. *)
Lemma balance_negative_without_payments :
  valid_payments_sum strptime_sample (sample_ledger 737971 (-100) (-112.87)) = Ret 0 /\
  debt.actualFinalDebt strptime_sample (sample_ledger 737971 (-100) (-112.87))
  = Ret (-112.87) /\
  -112.87 <> Rmax 0 (-112.87 - 0) /\
  -112.87 < 0.
Proof.
  split; [reflexivity | split; [reflexivity | split; [ | lra]]].
  rewrite Rmax_left by lra. lra.
Qed.

Lemma actualFinalDebt_floor_witness :
  debt.actualFinalDebt strptime_sample (sample_ledger 737971 10000 11286.95)
  = Ret 11286.95 /\
  debt.actualFinalDebt strptime_sample ledger_paid_twice
  = Ret (Rmax 0 (11286.95 - (1000 * 1 + (2000 * 1 + 0)))).
Proof.
  split.
  - apply (proj1 (actualFinalDebt_floor strptime_sample
                    (sample_ledger 737971 10000 11286.95))).
    reflexivity.
  - apply (proj2 (actualFinalDebt_floor strptime_sample ledger_paid_twice)).
    + unfold valid_payments_sum.
      change (filter debt.valid (debt.payments ledger_paid_twice))
        with [debt.mk_payment 1 "Jan 01 2022" 1000 true;
              debt.mk_payment 2 "Jan 01 2022" 2000 true].
      cbn [map sum_outcomes]. unfold future_valued.
      change (debt.daysToGo strptime_sample ledger_paid_twice
                (debt.RefStr (debt.date (debt.mk_payment 1 "Jan 01 2022" 1000 true))))
        with (@Ret Z 0%Z).
      change (debt.daysToGo strptime_sample ledger_paid_twice
                (debt.RefStr (debt.date (debt.mk_payment 2 "Jan 01 2022" 2000 true))))
        with (@Ret Z 0%Z).
      rewrite (discountRate_daily ledger_paid_twice (7 / 100) (360 / 28))
        by (try reflexivity; lra).
      rewrite !bind_Ret. unfold futureValue.
      rewrite pypow_zero_exponent, !bind_Ret. reflexivity.
    + left. discriminate.
Defined.

(** C7 (as stated, refuted).  A ledger whose second payment was already
    invalid: invalidating every payment and restoring every payment
    makes the second payment valid, and the balance goes from
    [11286.95 - 1000] to [11286.95 - 3000]. *)
Lemma restoring_revives_invalid_payment :
  debt.payments ledger_one_invalid <> [] /\
  debt.actualFinalDebt strptime_sample ledger_one_invalid = Ret (11286.95 - 1000) /\
  debt.actualFinalDebt strptime_sample ledger_swept = Ret (11286.95 - 3000) /\
  11286.95 - 1000 <> 11286.95 - 3000.
Proof.
  assert (H1 : debt.payments ledger_one_invalid
               = [debt.mk_payment 1 "Jan 01 2022" 1000 true;
                  debt.mk_payment 2 "Jan 01 2022" 2000 false]) by reflexivity.
  assert (H2 : debt.payments ledger_swept
               = [debt.mk_payment 1 "Jan 01 2022" 1000 true;
                  debt.mk_payment 2 "Jan 01 2022" 2000 true]) by reflexivity.
  split; [rewrite H1; discriminate | ].
  split; [ | split; [ | lra]].
  - rewrite sample_balance; rewrite ?H1; try reflexivity.
    + cbn [valid_amounts fold_right debt.valid debt.amount].
      change (debt.final_capital ledger_one_invalid) with 11286.95. f_equal. lra.
    + discriminate.
    + repeat constructor.
    + cbn [valid_amounts fold_right debt.valid debt.amount].
      change (debt.final_capital ledger_one_invalid) with 11286.95. lra.
  - rewrite sample_balance; rewrite ?H2; try reflexivity.
    + cbn [valid_amounts fold_right debt.valid debt.amount].
      change (debt.final_capital ledger_swept) with 11286.95. f_equal. lra.
    + discriminate.
    + repeat constructor.
    + cbn [valid_amounts fold_right debt.valid debt.amount].
      change (debt.final_capital ledger_swept) with 11286.95. lra.
Qed.

Lemma invalidate_then_restore_witness :
  debt.payments ledger_paid_twice <> [] /\
  debt.actualFinalDebt strptime_sample
    (invalidate_each (map debt.id (debt.payments ledger_paid_twice)) ledger_paid_twice)
  = Ret (debt.final_capital ledger_paid_twice) /\
  debt.actualFinalDebt strptime_sample
    (restore_each (map debt.id (debt.payments ledger_paid_twice))
       (invalidate_each (map debt.id (debt.payments ledger_paid_twice)) ledger_paid_twice))
  = debt.actualFinalDebt strptime_sample ledger_paid_twice.
Proof.
  assert (Hne : debt.payments ledger_paid_twice <> []) by discriminate.
  destruct (invalidate_then_restore strptime_sample ledger_paid_twice Hne) as [A B].
  split; [exact Hne | split].
  - apply A. change (debt.final_capital ledger_paid_twice) with 11286.95. lra.
  - apply B. reflexivity.
Defined.

(** C5 (as stated, refuted).  After [resetPayments] the id of the
    payment invalidated before the reset is still recorded.  The next
    payment registered gets id 1 again, and the next call of
    [invalidPayments], for the unrelated id 7, marks it invalid. *)
Lemma reset_keeps_invalid_ids :
  debt.payments ledger_after_reset = [] /\
  debt.invalid_payments ledger_after_reset = [1%Z] /\
  debt.payments ledger_repaid = [debt.mk_payment 1 "Jul 01 2021" 500 true] /\
  debt.payments (debt.invalidPayments ledger_repaid 7)
  = [debt.mk_payment 1 "Jul 01 2021" 500 false].
Proof. repeat split. Qed.

(** C5 (amended).  After [resetPayments] the payment list is empty and
    the recorded invalid ids are unchanged; [resetInvalidPayments] is
    the operation that empties them, and after both resets both are
    empty.  The first payment registered after [resetPayments] has id 1. *)
Theorem resetPayments_clears_payments_only (self : debt.obj)
    (now_string : string) (amount_ : R) (date_ : string) :
  debt.payments (debt.resetPayments self) = [] /\
  debt.invalid_payments (debt.resetPayments self) = debt.invalid_payments self /\
  debt.payments (debt.resetInvalidPayments (debt.resetPayments self)) = [] /\
  debt.invalid_payments (debt.resetInvalidPayments (debt.resetPayments self)) = [] /\
  map debt.id
    (debt.payments (debt.registerPayment now_string (debt.resetPayments self) amount_ date_))
  = [1%Z].
Proof. repeat split. Qed.

(** ** class Bonds *)

Lemma pyint_small (x : R) : 0 <= x < 1 -> pyint x = 0%Z.
Proof.
  intros [H0 H1]. unfold pyint.
  destruct (Rle_dec 0 x) as [_ | N]; [ | contradiction].
  symmetry. apply Int_part_spec. lra.
Qed.

Lemma init_sample_bond : Bonds.init 100 182 0.082 0.085 100 = Ret sample_bond.
Proof.
  unfold Bonds.init. rewrite pydiv_nonzero by lra. rewrite bind_Ret.
  rewrite pyint_small by lra. reflexivity.
Qed.

(** A bond fresh from [__init__] has none of the attributes the methods
    assign. *)
Lemma init_fresh (nv dp ir mr t2m : R) (b : Bonds.obj) :
  Bonds.init nv dp ir mr t2m = Ret b ->
  Bonds.lsp b = None /\ Bonds.dirty_price b = None /\ Bonds.duration b = None.
Proof.
  unfold Bonds.init. destruct (pydiv t2m dp); cbn [bind]; try discriminate.
  intros E. injection E as <-. repeat split.
Qed.

(** [dirtyPrice] leaves [lsp] assigned whenever it returns. *)
Lemma dirtyPrice_assigns_lsp (b b' : Bonds.obj) (p : R) :
  Bonds.dirtyPrice b = (Ret p, b') -> exists l, Bonds.lsp b' = Some l.
Proof.
  unfold Bonds.dirtyPrice, mbind, mread, massign.
  destruct (Bonds.dirtyPrice_loop b _ _ _) as [l | e | ]; try discriminate.
  destruct (py_eq _ _); intros E; injection E as _ <-; now exists l.
Qed.

(** Of the exceptions of the model, the arithmetic of the price methods
    raises ZeroDivisionError only. *)
Lemma only_zero_division_bind {A B : Type} (c : outcome A) (k : A -> outcome B) :
  only_zero_division c -> (forall a, only_zero_division (k a)) ->
  only_zero_division (bind c k).
Proof.
  intros Hc Hk e. destruct c as [a | e' | ]; cbn [bind].
  - exact (Hk a e).
  - intros H. injection H as <-. now apply Hc.
  - discriminate.
Qed.

Lemma only_zero_division_Ret {A : Type} (a : A) : only_zero_division (Ret a).
Proof. intros e H. discriminate. Qed.

Lemma only_zero_division_Raise {A B : Type} (e : pyexn) :
  only_zero_division (@Raise A e) -> only_zero_division (@Raise B e).
Proof. intros H e' E. injection E as <-. now apply H. Qed.

Lemma only_zero_division_pydiv (x y : R) : only_zero_division (pydiv x y).
Proof.
  intros e. unfold pydiv. destruct (Req_dec_T y 0); intros H; [ | discriminate].
  now injection H as <-.
Qed.

Lemma only_zero_division_pypow (x y : R) : only_zero_division (pypow x y).
Proof.
  intros e. unfold pypow.
  destruct (total_order_T 0 x) as [[L | E] | L]; [discriminate | | ].
  - destruct (Rlt_dec y 0); [intros H; now injection H as <- | ].
    destruct (Req_dec_T y 0); discriminate.
  - destruct (integral y); discriminate.
Qed.

Lemma only_zero_division_presetValue (c i n : R) :
  only_zero_division (presetValue c i n).
Proof.
  unfold presetValue. apply only_zero_division_bind.
  - apply only_zero_division_pypow.
  - intros a. apply only_zero_division_Ret.
Qed.

Lemma only_zero_division_dirtyPrice_loop (b : Bonds.obj) (k : nat) (j : Z) (acc : list R) :
  only_zero_division (Bonds.dirtyPrice_loop b k j acc).
Proof.
  revert j acc. induction k as [| k IH]; intros j acc.
  - apply only_zero_division_Ret.
  - cbn [Bonds.dirtyPrice_loop]. apply only_zero_division_bind.
    + apply only_zero_division_presetValue.
    + intros pv. apply IH.
Qed.

Lemma only_zero_division_dirtyPrice (b : Bonds.obj) :
  only_zero_division (fst (Bonds.dirtyPrice b)).
Proof.
  unfold Bonds.dirtyPrice, mbind, mread, massign.
  pose proof (only_zero_division_dirtyPrice_loop b
                (Z.to_nat (Bonds.integer_coupons (Bonds.coupons b))) 1 []) as H.
  destruct (Bonds.dirtyPrice_loop b _ _ _) as [l | e | ]; cbn [fst].
  - destruct (py_eq _ _); apply only_zero_division_Ret.
  - exact (only_zero_division_Raise e H).
  - discriminate.
Qed.

Lemma only_zero_division_cleanPrice (b : Bonds.obj) :
  only_zero_division (fst (Bonds.cleanPrice b)).
Proof.
  unfold Bonds.cleanPrice, mbind at 1.
  pose proof (only_zero_division_dirtyPrice b) as H.
  destruct (Bonds.dirtyPrice b) as [[dp | e | ] b1]; cbn [fst] in *;
    [ | exact H | discriminate].
  unfold mbind, massign, mread, mret.
  destruct (py_eq _ _); cbn [fst]; [apply only_zero_division_Ret | ].
  match goal with
  | |- only_zero_division (fst (match ?c with _ => _ end)) =>
      assert (Hc : only_zero_division c); [ | destruct c as [v | e | ]]
  end.
  - apply only_zero_division_bind; [apply only_zero_division_pydiv | intros e].
    apply only_zero_division_bind; [apply only_zero_division_pypow | intros q].
    apply only_zero_division_pydiv.
  - apply only_zero_division_Ret.
  - exact Hc.
  - discriminate.
Qed.

(** Once [lsp] is assigned, [getDuration] no longer fails for a missing
    attribute. *)
Lemma getDuration_with_lsp (b : Bonds.obj) (l : list R) :
  Bonds.lsp b = Some l -> only_zero_division (fst (Bonds.getDuration b)).
Proof.
  intros Hl. unfold Bonds.getDuration, mbind at 1, mread at 1. rewrite Hl.
  unfold mbind at 1, mread at 1. unfold mbind at 1.
  pose proof (only_zero_division_cleanPrice b) as H.
  destruct (Bonds.cleanPrice b) as [[cp | e | ] b1]; cbn [fst] in *;
    [ | exact H | discriminate].
  unfold mbind, mread, massign, mret.
  pose proof (only_zero_division_pydiv (Bonds.getDuration_loop b l 0 1) cp) as Hd.
  destruct (pydiv _ cp) as [d | e | ]; cbn [fst];
    [apply only_zero_division_Ret | exact Hd | discriminate].
Qed.

(** C9.  The bond of the example: 100/182 (about 0.549) coupons are
    pending, none of them whole; [dirtyPrice] has no whole coupon to
    discount and returns one coupon value, [100 * 182 * 0.082 / 360]
    (about 4.146), for the stub period; [passed_units] is
    [182 * (1 - 100/182)] days, and [cleanPrice] subtracts the interest
    accrued over that many days. *)
Theorem bond_example :
  Bonds.init 100 182 0.082 0.085 100 = Ret sample_bond /\
  Bonds.pending_coupons (Bonds.coupons sample_bond) = 100 / 182 /\
  0.549 < 100 / 182 < 0.550 /\
  Bonds.integer_coupons (Bonds.coupons sample_bond) = 0%Z /\
  Bonds.lsp (snd (Bonds.dirtyPrice sample_bond)) = Some [] /\
  fst (Bonds.dirtyPrice sample_bond) = Ret (100 * 182 * 0.082 / 360) /\
  4.145 < 100 * 182 * 0.082 / 360 < 4.146 /\
  Bonds.passed_units sample_bond = 182 * (1 - 100 / 182) /\
  82 <= Bonds.passed_units sample_bond <= 82.1 /\
  fst (Bonds.cleanPrice sample_bond)
  = Ret (100 * 182 * 0.082 / 360 / Rpower (1 + 182 * 0.085 / 360) (100 / 182)
         - 100 * 0.082 * Bonds.passed_units sample_bond / 360).
Proof.
  assert (Hfloat : py_eq (100 / 182 - IZR 0) 0 = false) by (apply py_eq_false; lra).
  assert (Hdirty : Bonds.dirtyPrice sample_bond
                   = (Ret (0 + 100 * 182 * 0.082 / 360), Bonds.set_lsp [] sample_bond)).
  { unfold Bonds.dirtyPrice, mbind, mread, massign.
    change (Bonds.dirtyPrice_loop sample_bond
              (Z.to_nat (Bonds.integer_coupons (Bonds.coupons sample_bond))) 1 [])
      with (@Ret (list R) []).
    cbv beta iota.
    change (Bonds.float_coupons (Bonds.coupons (Bonds.set_lsp [] sample_bond)))
      with (100 / 182 - IZR 0).
    rewrite Hfloat. reflexivity. }
  split; [exact init_sample_bond | ].
  split; [reflexivity | ].
  split; [lra | ].
  split; [reflexivity | ].
  split; [now rewrite Hdirty | ].
  split; [rewrite Hdirty; cbn [fst]; f_equal; lra | ].
  split; [lra | ].
  assert (Hpassed : Bonds.passed_units sample_bond = 182 * (1 - 100 / 182))
    by (cbn [Bonds.passed_units sample_bond]; lra).
  split; [exact Hpassed | ].
  split; [rewrite Hpassed; lra | ].
  unfold Bonds.cleanPrice, mbind. rewrite Hdirty.
  unfold massign, mread, mret, sample_bond.
  cbn [Bonds.set_dirty_price Bonds.set_lsp Bonds.coupons Bonds.float_coupons
       Bonds.delta_periods Bonds.market_rate Bonds.pending_units Bonds.nominal_value
       Bonds.interest_rate Bonds.passed_units Bonds.lsp Bonds.dirty_price
       Bonds.delayed_interest Bonds.clean_price Bonds.duration Bonds.value
       Bonds.pending_coupons Bonds.integer_coupons].
  rewrite Hfloat.
  rewrite pydiv_nonzero by lra. rewrite bind_Ret.
  rewrite pypow_pos by lra. rewrite bind_Ret.
  rewrite pydiv_nonzero by (apply Rgt_not_eq, exp_pos).
  cbn [fst].
  replace ((100 / 182 - IZR 0) * 182 / 182) with (100 / 182) by lra.
  f_equal. lra.
Qed.

(** C10.  On a bond fresh from [__init__], on which neither
    [dirtyPrice] nor [cleanPrice] was called, [getDuration] and
    [getSensibility] raise AttributeError: the list [lsp] is read first
    and does not exist yet, and nothing is computed or assigned before
    the failure.  A [dirtyPrice] that returns leaves the list assigned. *)
Theorem duration_needs_dirtyPrice (nv dp ir mr t2m : R) (b : Bonds.obj) :
  Bonds.init nv dp ir mr t2m = Ret b ->
  Bonds.getDuration b = (Raise AttributeError, b) /\
  Bonds.getSensibility b = (Raise AttributeError, b) /\
  (forall p b', Bonds.dirtyPrice b = (Ret p, b') -> Bonds.lsp b' <> None).
Proof.
  intros Hinit. destruct (init_fresh _ _ _ _ _ _ Hinit) as (Hl & _ & _).
  assert (Hd : Bonds.getDuration b = (Raise AttributeError, b)).
  { unfold Bonds.getDuration, mbind, mread. now rewrite Hl. }
  split; [exact Hd | split].
  - unfold Bonds.getSensibility, mbind. now rewrite Hd.
  - intros p b' E. destruct (dirtyPrice_assigns_lsp _ _ _ E) as [l ->]. discriminate.
Qed.

Lemma duration_needs_dirtyPrice_witness :
  Bonds.init 100 182 0.082 0.085 100 = Ret sample_bond /\
  Bonds.getDuration sample_bond = (Raise AttributeError, sample_bond) /\
  Bonds.getSensibility sample_bond = (Raise AttributeError, sample_bond).
Proof.
  split; [exact init_sample_bond | ].
  destruct (duration_needs_dirtyPrice 100 182 0.082 0.085 100 sample_bond init_sample_bond)
    as (A & B & _).
  split; [exact A | exact B].
Defined.

(** * Further properties of the code *)

(** ** Present and future values *)

Lemma pypow_one_exponent (x : R) : pypow x 1 = Ret x.
Proof.
  unfold pypow. destruct (total_order_T 0 x) as [[L | E] | L].
  - now rewrite Rpower_1.
  - destruct (Rlt_dec 1 0) as [F | _]; [lra | ].
    destruct (Req_dec_T 1 0) as [F | _]; [lra | ]. now rewrite <- E.
  - unfold integral. rewrite (Int_part_IZR 1).
    destruct (Req_dec_T (IZR 1) 1) as [_ | N]; [ | now elim N].
    f_equal. simpl. lra.
Qed.

Lemma Rpower_positive (x y : R) : 0 < Rpower x y.
Proof. unfold Rpower. apply exp_pos. Qed.

Lemma Rpower_cancel (x y : R) : 0 < x -> Rpower x (- y) * Rpower x y = 1.
Proof.
  intros Hx. rewrite <- Rpower_plus.
  replace (- y + y) with 0 by lra. now apply Rpower_O.
Qed.

(** X1.  For a rate above -1, discounting a capital over [n] periods and
    compounding the result over the same periods gives the capital back,
    and so does compounding first and discounting after. *)
Theorem present_future_round_trip (C i n : R) :
  -1 < i ->
  (v <- presetValue C i n ;; futureValue v i n) = Ret C /\
  (v <- futureValue C i n ;; presetValue v i n) = Ret C.
Proof.
  intros Hi. assert (Hb : 0 < 1 + i) by lra.
  unfold presetValue, futureValue. rewrite !(pypow_pos _ _ Hb). cbn [bind].
  pose proof (Rpower_cancel (1 + i) n Hb) as Hc.
  split; f_equal.
  - rewrite Rmult_assoc, Hc. lra.
  - rewrite Rmult_assoc, (Rmult_comm (Rpower _ n)), Hc. lra.
Qed.

Lemma present_future_round_trip_witness :
  -1 < 0.01 /\
  (v <- presetValue 1000 0.01 12 ;; futureValue v 0.01 12) = Ret 1000 /\
  (v <- futureValue 1000 0.01 12 ;; presetValue v 0.01 12) = Ret 1000.
Proof. split; [lra | apply present_future_round_trip; lra]. Defined.

(** X2.  Continuous discounting undoes continuous compounding, for every
    capital, rate and time. *)
Theorem continuous_round_trip (C i y : R) :
  (v <- contFutureValue C i y ;; contPresentValue v i y) = Ret C /\
  (v <- contPresentValue C i y ;; contFutureValue v i y) = Ret C.
Proof.
  unfold contFutureValue, contPresentValue. cbn [bind].
  split; f_equal; rewrite Rmult_assoc, <- exp_plus.
  - replace (i * y + - i * y) with 0 by lra. rewrite exp_0. lra.
  - replace (- i * y + i * y) with 0 by lra. rewrite exp_0. lra.
Qed.

(** X3.  [annualInterest] recovers the rate of [futureValue]: for a
    positive capital, a rate above -1 and a number of periods other than
    0, the rate implied by a capital and its future value is the rate
    the future value was computed with. *)
Theorem annualInterest_of_futureValue (C i n : R) :
  0 < C -> -1 < i -> n <> 0 ->
  (v <- futureValue C i n ;; annualInterest C v n) = Ret i.
Proof.
  intros HC Hi Hn. assert (Hb : 0 < 1 + i) by lra.
  unfold futureValue, annualInterest. rewrite (pypow_pos _ _ Hb). cbn [bind].
  rewrite pydiv_nonzero by lra. rewrite bind_Ret.
  rewrite (pydiv_nonzero 1 n Hn), bind_Ret.
  replace (C * Rpower (1 + i) n / C) with (Rpower (1 + i) n) by (field; lra).
  rewrite pypow_pos by apply Rpower_positive. rewrite bind_Ret.
  rewrite Rpower_mult. replace (n * (1 / n)) with 1 by (field; exact Hn).
  rewrite Rpower_1 by exact Hb. f_equal. lra.
Qed.

Lemma annualInterest_of_futureValue_witness :
  0 < 1000 /\ -1 < 0.05 /\ 3 <> 0 /\
  (v <- futureValue 1000 0.05 3 ;; annualInterest 1000 v 3) = Ret 0.05.
Proof.
  split; [lra | split; [lra | split; [lra | ]]].
  apply annualInterest_of_futureValue; lra.
Defined.

(** ** Equivalent rates *)

(** X4.  A rate that capitalizes once a year is its own equivalent annual
    rate, whatever its value. *)
Theorem equivalentAnnualInterest_annual (r : R) :
  equivalentAnnualInterest r 1 = Ret r.
Proof.
  unfold equivalentAnnualInterest. rewrite pydiv_nonzero by lra. rewrite bind_Ret.
  rewrite pypow_one_exponent, bind_Ret. f_equal. lra.
Qed.

(** X5.  Converting a rate to the frequency it already has returns the
    rate, for every rate and every frequency other than 0. *)
Theorem equivalentRate_same_frequency (r f : R) :
  f <> 0 -> equivalentRate r f f = Ret r.
Proof.
  intros Hf. unfold equivalentRate.
  rewrite !(pydiv_nonzero _ f Hf). cbn [bind].
  replace (f / f) with 1 by (field; exact Hf).
  rewrite pypow_one_exponent, bind_Ret. f_equal. field. exact Hf.
Qed.

Lemma equivalentRate_same_frequency_witness :
  12 <> 0 /\ equivalentRate (-20) 12 12 = Ret (-20).
Proof. split; [lra | apply equivalentRate_same_frequency; lra]. Defined.

(** X6.  Converting to one capitalization a year is what
    [equivalentAnnualInterest] computes: the two functions agree on every
    rate and frequency, errors included. *)
Theorem equivalentRate_to_annual (r cap : R) :
  equivalentRate r cap 1 = equivalentAnnualInterest r cap.
Proof.
  unfold equivalentRate, equivalentAnnualInterest.
  destruct (pydiv r cap) as [q | e | ]; cbn [bind]; [ | reflexivity | reflexivity].
  rewrite pydiv_nonzero by lra. rewrite bind_Ret.
  replace (cap / 1) with cap by lra.
  destruct (pypow (1 + q) cap) as [p | e | ]; cbn [bind]; [ | reflexivity | reflexivity].
  f_equal. lra.
Qed.

(** X7.  Conversions compose: with a positive base [1 + r / f1],
    converting from [f1] to [f2] and then from [f2] to [f3] is converting
    from [f1] to [f3] directly. *)
Theorem equivalentRate_compose (r f1 f2 f3 : R) :
  f1 <> 0 -> f2 <> 0 -> f3 <> 0 -> 0 < 1 + r / f1 ->
  (e <- equivalentRate r f1 f2 ;; equivalentRate e f2 f3) = equivalentRate r f1 f3.
Proof.
  intros H1 H2 H3 Hb. unfold equivalentRate.
  rewrite !(pydiv_nonzero r f1 H1), (pydiv_nonzero f1 f2 H2), (pydiv_nonzero f1 f3 H3).
  cbn [bind]. rewrite !(pypow_pos _ _ Hb). cbn [bind].
  set (p := Rpower (1 + r / f1) (f1 / f2)).
  assert (Hp : 0 < p) by apply Rpower_positive.
  rewrite (pydiv_nonzero _ f2 H2), bind_Ret, (pydiv_nonzero f2 f3 H3), bind_Ret.
  replace (1 + f2 * (p - 1) / f2) with p by (field; exact H2).
  rewrite (pypow_pos _ _ Hp), bind_Ret. unfold p. rewrite Rpower_mult.
  replace (f1 / f2 * (f2 / f3)) with (f1 / f3) by (field; split; assumption).
  reflexivity.
Qed.

Lemma equivalentRate_compose_witness :
  12 <> 0 /\ 360 <> 0 /\ 2 <> 0 /\ 0 < 1 + 0.12 / 12 /\
  (e <- equivalentRate 0.12 12 360 ;; equivalentRate e 360 2) = equivalentRate 0.12 12 2.
Proof.
  split; [lra | split; [lra | split; [lra | split; [lra | ]]]].
  apply equivalentRate_compose; lra.
Defined.

(** X8.  A conversion keeps the effective annual rate: with a positive
    base, the rate converted to another frequency has the same
    equivalent annual rate as the rate it came from. *)
Theorem equivalentRate_keeps_annual_rate (r f1 f2 : R) :
  f1 <> 0 -> f2 <> 0 -> 0 < 1 + r / f1 ->
  (e <- equivalentRate r f1 f2 ;; equivalentAnnualInterest e f2)
  = equivalentAnnualInterest r f1.
Proof.
  intros H1 H2 Hb. unfold equivalentRate, equivalentAnnualInterest.
  rewrite !(pydiv_nonzero r f1 H1), (pydiv_nonzero f1 f2 H2). cbn [bind].
  rewrite !(pypow_pos _ _ Hb). cbn [bind].
  set (p := Rpower (1 + r / f1) (f1 / f2)).
  assert (Hp : 0 < p) by apply Rpower_positive.
  rewrite (pydiv_nonzero _ f2 H2), bind_Ret.
  replace (1 + f2 * (p - 1) / f2) with p by (field; exact H2).
  rewrite (pypow_pos _ _ Hp), bind_Ret. unfold p. rewrite Rpower_mult.
  replace (f1 / f2 * f2) with f1 by (field; exact H2).
  reflexivity.
Qed.

Lemma equivalentRate_keeps_annual_rate_witness :
  12 <> 0 /\ 360 <> 0 /\ 0 < 1 + 0.12 / 12 /\
  (e <- equivalentRate 0.12 12 360 ;; equivalentAnnualInterest e 360)
  = equivalentAnnualInterest 0.12 12.
Proof.
  split; [lra | split; [lra | split; [lra | ]]].
  apply equivalentRate_keeps_annual_rate; lra.
Defined.

(** X9.  [realRate] satisfies the Fisher relation: for an inflation other
    than -1 it returns the [q] with [(1 + q) * (1 + inflation) = 1 + rate];
    for an inflation of -1 it raises ZeroDivisionError. *)
Theorem realRate_fisher (rate inflation : R) :
  (inflation <> -1 ->
   exists q, realRate rate inflation = Ret q /\ (1 + q) * (1 + inflation) = 1 + rate) /\
  realRate rate (-1) = Raise ZeroDivisionError.
Proof.
  split.
  - intros Hi. exists ((1 + rate) / (1 + inflation) - 1). split.
    + unfold realRate. rewrite pydiv_nonzero by lra. reflexivity.
    + field. lra.
  - unfold realRate. replace (1 + -1) with 0 by lra. now rewrite pydiv_zero.
Qed.

Lemma realRate_fisher_witness :
  0.04 <> -1 /\
  exists q, realRate 0.12 0.04 = Ret q /\ (1 + q) * (1 + 0.04) = 1 + 0.12.
Proof. split; [lra | apply (realRate_fisher 0.12 0.04); lra]. Defined.

Lemma equivalentRate_zero_frequency (a b c : R) :
  b = 0 \/ c = 0 -> equivalentRate a b c = Raise ZeroDivisionError.
Proof.
  intros [E | E]; unfold equivalentRate.
  - subst b. now rewrite pydiv_zero.
  - subst c. destruct (pydiv a b) as [q | e | ] eqn:Hq; cbn [bind].
    + now rewrite pydiv_zero.
    + f_equal. now apply (only_zero_division_pydiv a b).
    + unfold pydiv in Hq. destruct (Req_dec_T b 0); discriminate.
Qed.

(** ** Frequencies of an interest rate object *)

Lemma named_frequency_not_cont (s : string) (n : Z) :
  dict_get interest_rate.cap_options s = Some (Per n) ->
  interest_rate.is_cont (CapStr s) = false.
Proof.
  intros H. cbn [interest_rate.is_cont].
  destruct (String.eqb s "cont") eqn:E; [ | reflexivity].
  apply String.eqb_eq in E. subst s. discriminate H.
Qed.

(** X10.  A named frequency stands for its number: for every name of the
    table other than ['cont'], [annualRate] and [rate] give for the name
    what they give for the number of periods it maps to. *)
Theorem named_frequency_is_its_number (self : interest_rate.obj) (s : string) (n : Z) :
  dict_get interest_rate.cap_options s = Some (Per n) ->
  interest_rate.annualRate self (CapStr s) = interest_rate.annualRate self (CapInt n) /\
  interest_rate.rate self (CapStr s) = interest_rate.rate self (CapInt n).
Proof.
  intros H. pose proof (named_frequency_not_cont s n H) as Hc.
  assert (Ha : interest_rate.annualRate self (CapStr s)
               = interest_rate.annualRate self (CapInt n)).
  { unfold interest_rate.annualRate. rewrite Hc.
    cbn [interest_rate.get_aux interest_rate.is_cont]. now rewrite H. }
  split; [exact Ha | ].
  unfold interest_rate.rate. rewrite Hc, Ha.
  cbn [interest_rate.get_aux interest_rate.is_cont]. now rewrite H.
Qed.

Lemma named_frequency_is_its_number_witness :
  dict_get interest_rate.cap_options "3m" = Some (Per 4) /\
  interest_rate.rate (interest_rate.mk (mk_rate_dict 0.12 12)) (CapStr "3m")
  = interest_rate.rate (interest_rate.mk (mk_rate_dict 0.12 12)) (CapInt 4).
Proof.
  split; [reflexivity | ].
  apply (named_frequency_is_its_number (interest_rate.mk (mk_rate_dict 0.12 12)) "3m" 4).
  reflexivity.
Defined.

(** X11.  What [annualRate] and [rate] raise on a frequency they cannot
    use: KeyError for a name that is not in the table, UnboundLocalError
    for an argument that is neither a string nor an integer,
    ZeroDivisionError for the integer 0. *)
Theorem frequency_errors (self : interest_rate.obj) :
  (forall s, dict_get interest_rate.cap_options s = None ->
     interest_rate.annualRate self (CapStr s) = Raise KeyError /\
     interest_rate.rate self (CapStr s) = Raise KeyError) /\
  interest_rate.annualRate self CapOther = Raise UnboundLocalError /\
  interest_rate.rate self CapOther = Raise UnboundLocalError /\
  interest_rate.annualRate self (CapInt 0) = Raise ZeroDivisionError /\
  interest_rate.rate self (CapInt 0) = Raise ZeroDivisionError.
Proof.
  assert (H0 : interest_rate.annualRate self (CapInt 0) = Raise ZeroDivisionError).
  { unfold interest_rate.annualRate. cbn [interest_rate.get_aux interest_rate.is_cont bind].
    apply equivalentRate_zero_frequency. now right. }
  split; [ | split; [reflexivity | split; [reflexivity | split; [exact H0 | ]]]].
  - intros s Hs. unfold interest_rate.rate, interest_rate.annualRate.
    cbn [interest_rate.get_aux]. rewrite Hs. split; reflexivity.
  - unfold interest_rate.rate. cbn [interest_rate.get_aux interest_rate.is_cont bind].
    now rewrite H0.
Qed.

Lemma frequency_errors_witness :
  dict_get interest_rate.cap_options "weekly" = None /\
  interest_rate.rate (interest_rate.mk (mk_rate_dict 0.12 12)) (CapStr "weekly")
  = Raise KeyError.
Proof.
  split; [reflexivity | ].
  apply (proj1 (frequency_errors (interest_rate.mk (mk_rate_dict 0.12 12))) "weekly").
  reflexivity.
Defined.

(** X12.  The periodic rate is ready to use: with a positive base
    [1 + r / c], compounding [rate(n)] over the [n] periods of a year
    gives what compounding the equivalent annual rate once gives. *)
Theorem periodic_rate_compounds (r c C : R) (n : Z) :
  c <> 0 -> 0 < 1 + r / c -> n <> 0%Z ->
  (i <- interest_rate.rate (interest_rate.mk (mk_rate_dict r c)) (CapInt n) ;;
   futureValue C i (IZR n))
  = (a <- equivalentAnnualInterest r c ;; futureValue C a 1).
Proof.
  intros Hc Hb Hn.
  assert (Hn' : IZR n <> 0) by (apply not_0_IZR; exact Hn).
  unfold interest_rate.rate, interest_rate.annualRate.
  cbn [interest_rate.get_aux interest_rate.is_cont bind
       interest_rate.reference_rate dict_rate dict_cap].
  unfold equivalentRate, equivalentAnnualInterest, futureValue.
  rewrite !(pydiv_nonzero r c Hc), (pydiv_nonzero c (IZR n) Hn'). cbn [bind].
  rewrite !(pypow_pos _ _ Hb). cbn [bind].
  set (p := Rpower (1 + r / c) (c / IZR n)).
  assert (Hp : 0 < p) by apply Rpower_positive.
  rewrite (pydiv_nonzero _ (IZR n) Hn'), bind_Ret.
  replace (1 + IZR n * (p - 1) / IZR n) with p by (field; exact Hn').
  rewrite (pypow_pos _ _ Hp), bind_Ret. unfold p. rewrite Rpower_mult.
  replace (c / IZR n * IZR n) with c by (field; exact Hn').
  rewrite pypow_one_exponent, bind_Ret. f_equal. lra.
Qed.

Lemma periodic_rate_compounds_witness :
  12 <> 0 /\ 0 < 1 + 0.12 / 12 /\ 360%Z <> 0%Z /\
  (i <- interest_rate.rate (interest_rate.mk (mk_rate_dict 0.12 12)) (CapInt 360) ;;
   futureValue 1000 i (IZR 360))
  = (a <- equivalentAnnualInterest 0.12 12 ;; futureValue 1000 a 1).
Proof.
  split; [lra | split; [lra | split; [lia | ]]].
  apply periodic_rate_compounds; [lra | lra | lia].
Defined.

(** X13.  The spread on the equivalent annual basis compares the rate
    with the reference rate of the chosen tenor: the rate object built
    from that very reference rate ([cetes[k] / 100] capitalizing
    [360 / k] times a year, as the discount rate of a debt is) has a
    spread of 0. *)
Theorem riskFreeSpread_of_reference (cetes : list (Z * R)) (k : Z) (v a : R)
    (kind : string) :
  String.eqb kind "cont" = false ->
  int_dict_get cetes k = Some v ->
  k <> 0%Z ->
  equivalentAnnualInterest (v / 100) (360 / IZR k) = Ret a ->
  interest_rate.riskFreeSpread cetes
    (interest_rate.mk (mk_rate_dict (v / 100) (360 / IZR k))) k kind
  = Ret 0.
Proof.
  intros Hkind Hk Hk0 Ha.
  unfold interest_rate.riskFreeSpread. rewrite Hkind, Hk.
  cbn [interest_rate.reference_rate dict_rate dict_cap].
  rewrite Ha, bind_Ret.
  rewrite pydiv_nonzero by lra. rewrite bind_Ret.
  rewrite pydiv_nonzero by (apply not_0_IZR; exact Hk0). rewrite bind_Ret.
  rewrite Ha, bind_Ret. f_equal. lra.
Qed.

Lemma riskFreeSpread_of_reference_witness :
  String.eqb "eq_annual" "cont" = false /\
  int_dict_get cetes_sample 28 = Some 7 /\
  28%Z <> 0%Z /\
  equivalentAnnualInterest (7 / 100) (360 / IZR 28)
  = Ret (Rpower (1 + 7 / 100 / (360 / IZR 28)) (360 / IZR 28) - 1) /\
  interest_rate.riskFreeSpread cetes_sample
    (interest_rate.mk (mk_rate_dict (7 / 100) (360 / IZR 28))) 28 "eq_annual"
  = Ret 0.
Proof.
  assert (Ha : equivalentAnnualInterest (7 / 100) (360 / IZR 28)
               = Ret (Rpower (1 + 7 / 100 / (360 / IZR 28)) (360 / IZR 28) - 1)).
  { unfold equivalentAnnualInterest. rewrite pydiv_nonzero by lra.
    rewrite bind_Ret. rewrite pypow_pos by lra. reflexivity. }
  split; [reflexivity | split; [reflexivity | split; [lia | split; [exact Ha | ]]]].
  apply (riskFreeSpread_of_reference cetes_sample 28 7
           (Rpower (1 + 7 / 100 / (360 / IZR 28)) (360 / IZR 28) - 1) "eq_annual");
    [reflexivity | reflexivity | lia | exact Ha].
Defined.

(** A tenor that is not in the table of reference rates makes the
    spread on the equivalent annual basis raise KeyError, once the
    object's own annual rate has been computed. *)
Theorem riskFreeSpread_unknown_tenor (cetes : list (Z * R))
    (self : interest_rate.obj) (k : Z) (a : R) (kind : string) :
  String.eqb kind "cont" = false ->
  int_dict_get cetes k = None ->
  equivalentAnnualInterest (dict_rate (interest_rate.reference_rate self))
                           (dict_cap (interest_rate.reference_rate self)) = Ret a ->
  interest_rate.riskFreeSpread cetes self k kind = Raise KeyError.
Proof.
  intros Hkind Hk Ha. unfold interest_rate.riskFreeSpread.
  now rewrite Hkind, Hk, Ha.
Qed.

Lemma riskFreeSpread_unknown_tenor_witness :
  String.eqb "eq_annual" "cont" = false /\
  int_dict_get cetes_sample 30 = None /\
  interest_rate.riskFreeSpread cetes_sample
    (interest_rate.mk (mk_rate_dict 0.12 1)) 30 "eq_annual"
  = Raise KeyError.
Proof.
  split; [reflexivity | split; [reflexivity | ]].
  apply (riskFreeSpread_unknown_tenor cetes_sample _ 30 0.12 "eq_annual");
    [reflexivity | reflexivity | ].
  cbn [interest_rate.reference_rate dict_rate dict_cap].
  unfold equivalentAnnualInterest. rewrite pydiv_nonzero by lra.
  rewrite bind_Ret, pypow_one_exponent, bind_Ret. f_equal. lra.
Defined.

(** ** Payment ids *)

Lemma last_cons {A : Type} (a d : A) (l : list A) : last (a :: l) d = last l a.
Proof.
  revert a d. induction l as [| b l IH]; intros a d; [reflexivity | ].
  change (last (a :: b :: l) d) with (last (b :: l) d).
  now rewrite !IH.
Qed.

Lemma last_map {A B : Type} (f : A -> B) (l : list A) (d : A) :
  last (map f l) (f d) = f (last l d).
Proof.
  induction l as [| a l IH]; [reflexivity | ].
  destruct l as [| b l]; [reflexivity | exact IH].
Qed.

Lemma NoDup_map_of_nat (l : list nat) : NoDup l -> NoDup (map Z.of_nat l).
Proof.
  induction 1 as [| n l Hn Hl IH]; cbn [map]; constructor; [ | exact IH].
  intros Hin. apply in_map_iff in Hin. destruct Hin as (m & E & Hm).
  apply Nat2Z.inj in E. now subst m.
Qed.

Lemma numbered_last (ps : list debt.payment) (p0 : debt.payment) :
  numbered (p0 :: ps) ->
  debt.id (last ps p0) = Z.of_nat (length (p0 :: ps)).
Proof.
  unfold numbered. intros H.
  rewrite <- (last_cons p0 p0 ps).
  rewrite <- (last_map debt.id (p0 :: ps) p0), H.
  cbn [length]. rewrite seq_S, map_app. cbn [map].
  rewrite last_last. cbn [plus]. reflexivity.
Qed.

Lemma registerPayment_payments (now_string : string) (s : debt.obj) (a : R)
    (d : string) :
  exists p,
    debt.payments (debt.registerPayment now_string s a d) = debt.payments s ++ [p] /\
    debt.valid p = true /\ debt.amount p = a /\
    debt.date p = (if debt.contains_now d then now_string else d) /\
    debt.id p = match debt.payments s with
                | [] => 1%Z
                | p0 :: ps => (debt.id (last ps p0) + 1)%Z
                end.
Proof.
  destruct s as [ps ip d0 d1 d2 c r fc dr st]. unfold debt.registerPayment.
  cbn [debt.payments]. destruct ps as [| p0 ps].
  - eexists. split; [reflexivity | ]. repeat split.
  - eexists. split; [reflexivity | ]. repeat split.
Qed.

Lemma flagged_id (ids : list Z) (p : debt.payment) : debt.id (flagged ids p) = debt.id p.
Proof. unfold flagged. now destruct (debt.mem _ _). Qed.

Lemma restored_id (x : Z) (p : debt.payment) : debt.id (restored x p) = debt.id p.
Proof. unfold restored. now destruct (Z.eqb _ _). Qed.

(** X14.  Payment ids stay 1, 2, 3, ... in order: a payment list numbered
    this way is still numbered so after [registerPayment],
    [invalidPayments] and [deleteInvalidPayment], the list left by
    [resetPayments] is, and in such a list no id occurs twice. *)
Theorem payment_ids_numbered (now_string : string) (s : debt.obj) (a : R)
    (d : string) (x : Z) :
  numbered (debt.payments s) ->
  numbered (debt.payments (debt.registerPayment now_string s a d)) /\
  numbered (debt.payments (debt.invalidPayments s x)) /\
  numbered (debt.payments (debt.deleteInvalidPayment s x)) /\
  numbered (debt.payments (debt.resetPayments s)) /\
  NoDup (map debt.id (debt.payments s)).
Proof.
  intros Hn. split; [ | split; [ | split; [ | split]]].
  - destruct (registerPayment_payments now_string s a d) as (p & Hp & _ & _ & _ & Hid).
    unfold numbered in *. rewrite Hp, map_app, length_app. cbn [map length].
    rewrite Nat.add_1_r, seq_S, map_app, <- Hn. cbn [map plus]. do 2 f_equal.
    rewrite Hid. destruct (debt.payments s) as [| p0 ps] eqn:E; [reflexivity | ].
    rewrite (numbered_last ps p0 Hn). lia.
  - unfold numbered in *. rewrite invalidPayments_payments, map_map, length_map.
    rewrite <- Hn. apply map_ext. intros p. apply flagged_id.
  - unfold numbered in *. rewrite deleteInvalidPayment_payments, map_map, length_map.
    rewrite <- Hn. apply map_ext. intros p. apply restored_id.
  - unfold numbered. reflexivity.
  - unfold numbered in Hn. rewrite Hn.
    apply NoDup_map_of_nat, seq_NoDup.
Qed.

Lemma payment_ids_numbered_witness :
  numbered (debt.payments ledger_paid_twice) /\
  numbered (debt.payments
              (debt.registerPayment "Jun 30 2021" ledger_paid_twice 500 "now")).
Proof.
  assert (H : numbered (debt.payments ledger_paid_twice))
    by (unfold numbered; reflexivity).
  split; [exact H | ].
  apply (payment_ids_numbered "Jun 30 2021" ledger_paid_twice 500 "now" 0 H).
Defined.

(** ** Invalidating and restoring one payment *)

Lemma mem_true_In (x : Z) (l : list Z) : debt.mem x l = true -> In x l.
Proof.
  intros H. apply existsb_exists in H. destruct H as (y & Hy & E).
  apply Z.eqb_eq in E. now subst y.
Qed.

(** X15.  [invalidPayments] records the id and sweeps the whole list:
    afterwards every payment whose id is recorded, by this call or an
    earlier one, is invalid; a payment whose id is not recorded is left
    as it was; ids, dates and amounts are untouched. *)
Theorem invalidPayments_sweeps (s : debt.obj) (x : Z) :
  debt.invalid_payments (debt.invalidPayments s x) = debt.invalid_payments s ++ [x] /\
  consistent (debt.invalidPayments s x) /\
  (forall p, In p (debt.payments s) ->
     debt.mem (debt.id p) (debt.invalid_payments s ++ [x]) = false ->
     In p (debt.payments (debt.invalidPayments s x))) /\
  map (fun p => (debt.id p, debt.date p, debt.amount p))
      (debt.payments (debt.invalidPayments s x))
  = map (fun p => (debt.id p, debt.date p, debt.amount p)) (debt.payments s).
Proof.
  split; [apply invalidPayments_invalid | split; [ | split]].
  - intros p Hp Hm. rewrite invalidPayments_payments in Hp.
    rewrite invalidPayments_invalid in Hm.
    apply in_map_iff in Hp. destruct Hp as (q & <- & Hq).
    rewrite flagged_id in Hm. unfold flagged. now rewrite Hm.
  - intros p Hp Hm. rewrite invalidPayments_payments.
    apply in_map_iff. exists p. split; [ | exact Hp].
    unfold flagged. now rewrite Hm.
  - rewrite invalidPayments_payments, map_map. apply map_ext. intros p.
    unfold flagged. now destruct (debt.mem _ _).
Qed.

Lemma deleteInvalidPayment_invalid (s : debt.obj) (x : Z) :
  debt.invalid_payments (debt.deleteInvalidPayment s x)
  = filter (fun j => negb (Z.eqb j x)) (debt.invalid_payments s).
Proof.
  destruct s as [ps ip d0 d1 d2 c r fc dr st].
  unfold debt.deleteInvalidPayment. destruct ps; reflexivity.
Qed.

(** X16.  [deleteInvalidPayment] forgets every record of the id and
    keeps the records of the other ids; afterwards every payment with
    that id is valid, and the payments with another id are as they
    were. *)
Theorem deleteInvalidPayment_restores (s : debt.obj) (x : Z) :
  ~ In x (debt.invalid_payments (debt.deleteInvalidPayment s x)) /\
  (forall y, y <> x ->
     (In y (debt.invalid_payments (debt.deleteInvalidPayment s x))
      <-> In y (debt.invalid_payments s))) /\
  (forall p, In p (debt.payments (debt.deleteInvalidPayment s x)) ->
     debt.id p = x -> debt.valid p = true) /\
  (forall p, In p (debt.payments s) -> debt.id p <> x ->
     In p (debt.payments (debt.deleteInvalidPayment s x))).
Proof.
  pose proof (deleteInvalidPayment_invalid s x) as Hinv.
  split; [ | split; [ | split]].
  - rewrite Hinv. intros H. apply filter_In in H. destruct H as [_ H].
    rewrite Z.eqb_refl in H. discriminate.
  - intros y Hy. rewrite Hinv, filter_In. split; [now intros [H _] | ].
    intros H. split; [exact H | ]. apply Z.eqb_neq in Hy. now rewrite Hy.
  - intros p Hp Hid. rewrite deleteInvalidPayment_payments in Hp.
    apply in_map_iff in Hp. destruct Hp as (q & <- & Hq).
    rewrite restored_id in Hid. unfold restored.
    apply Z.eqb_eq in Hid. now rewrite Hid.
  - intros p Hp Hid. rewrite deleteInvalidPayment_payments.
    apply in_map_iff. exists p. split; [ | exact Hp].
    unfold restored. apply Z.eqb_neq in Hid. now rewrite Hid.
Qed.

Lemma obj_ext (s s' : debt.obj) :
  debt.payments s = debt.payments s' ->
  debt.invalid_payments s = debt.invalid_payments s' ->
  debt.initial_date s = debt.initial_date s' ->
  debt.final_date s = debt.final_date s' ->
  debt.actual_date s = debt.actual_date s' ->
  debt.capital s = debt.capital s' ->
  debt.i s = debt.i s' ->
  debt.final_capital s = debt.final_capital s' ->
  debt.discount_rate s = debt.discount_rate s' ->
  debt.debt_status s = debt.debt_status s' ->
  s = s'.
Proof.
  destruct s, s'. cbn. intros. subst. reflexivity.
Qed.

Lemma filter_keeps_all (x : Z) (l : list Z) :
  ~ In x l -> filter (fun j => negb (Z.eqb j x)) l = l.
Proof.
  induction l as [| y l IH]; intros H; [reflexivity | ].
  cbn [filter]. destruct (Z.eqb y x) eqn:E.
  - apply Z.eqb_eq in E. subst y. elim H. now left.
  - cbn [negb]. rewrite IH; [reflexivity | ]. intros Hin. apply H. now right.
Qed.

(** X17.  Restoring undoes invalidating: on a ledger where every
    recorded id has its payments flagged, for an id that is not recorded
    and whose payments are valid, [invalidPayments] followed by
    [deleteInvalidPayment] for that id gives the ledger back, payments
    and records. *)
Theorem invalidate_restore_one (s : debt.obj) (x : Z) :
  consistent s ->
  ~ In x (debt.invalid_payments s) ->
  (forall p, In p (debt.payments s) -> debt.id p = x -> debt.valid p = true) ->
  debt.deleteInvalidPayment (debt.invalidPayments s x) x = s.
Proof.
  intros Hc Hx Hv.
  assert (Hp : debt.payments (debt.deleteInvalidPayment (debt.invalidPayments s x) x)
               = debt.payments s).
  { rewrite deleteInvalidPayment_payments, invalidPayments_payments, map_map.
    rewrite <- (map_id (debt.payments s)) at 2.
    apply map_ext_in. intros p Hin.
    unfold flagged. rewrite mem_app.
    destruct (Z.eqb (debt.id p) x) eqn:E.
    - assert (Hm : debt.mem (debt.id p) [x] = true)
        by (cbn; now rewrite E).
      rewrite Hm, orb_true_r. unfold restored. cbn [debt.id debt.set_valid].
      rewrite E. apply Z.eqb_eq in E. specialize (Hv p Hin E).
      destruct p as [a b c v]. cbn in Hv. subst v. reflexivity.
    - assert (Hm : debt.mem (debt.id p) [x] = false)
        by (cbn; now rewrite E).
      rewrite Hm, orb_false_r.
      destruct (debt.mem (debt.id p) (debt.invalid_payments s)) eqn:M.
      + unfold restored. cbn [debt.id debt.set_valid]. rewrite E.
        specialize (Hc p Hin M).
        destruct p as [a b c v]. cbn in Hc. subst v. reflexivity.
      + unfold restored. now rewrite E. }
  apply obj_ext; try exact Hp;
    try (destruct s as [ps ip d0 d1 d2 c r fc dr st];
         unfold debt.deleteInvalidPayment, debt.invalidPayments;
         destruct ps; reflexivity).
  rewrite deleteInvalidPayment_invalid, invalidPayments_invalid, filter_app.
  cbn [filter].
  rewrite Z.eqb_refl. cbn [negb]. rewrite app_nil_r.
  now apply filter_keeps_all.
Qed.

Lemma invalidate_restore_one_witness :
  consistent ledger_paid_twice /\
  ~ In 2%Z (debt.invalid_payments ledger_paid_twice) /\
  debt.deleteInvalidPayment (debt.invalidPayments ledger_paid_twice 2) 2
  = ledger_paid_twice.
Proof.
  assert (Hc : consistent ledger_paid_twice) by (intros p _ Hm; discriminate Hm).
  assert (Hx : ~ In 2%Z (debt.invalid_payments ledger_paid_twice)) by (intros []).
  split; [exact Hc | split; [exact Hx | ]].
  apply (invalidate_restore_one ledger_paid_twice 2 Hc Hx).
  intros p [<- | [<- | []]] _; reflexivity.
Defined.

(** X18.  An id that no payment carries changes no payment:
    [deleteInvalidPayment] leaves the payments as they are, and so does
    [invalidPayments] on a ledger where every recorded id has its
    payments flagged, although it records the id. *)
Theorem unknown_id_changes_no_payment (s : debt.obj) (x : Z) :
  (forall p, In p (debt.payments s) -> debt.id p <> x) ->
  debt.payments (debt.deleteInvalidPayment s x) = debt.payments s /\
  (consistent s ->
   debt.payments (debt.invalidPayments s x) = debt.payments s /\
   In x (debt.invalid_payments (debt.invalidPayments s x))).
Proof.
  intros Hx. split.
  - rewrite deleteInvalidPayment_payments.
    rewrite <- (map_id (debt.payments s)) at 2.
    apply map_ext_in. intros p Hp. unfold restored.
    specialize (Hx p Hp). apply Z.eqb_neq in Hx. now rewrite Hx.
  - intros Hc. split.
    + rewrite invalidPayments_payments.
      rewrite <- (map_id (debt.payments s)) at 2.
      apply map_ext_in. intros p Hp. unfold flagged. rewrite mem_app.
      assert (Hm : debt.mem (debt.id p) [x] = false).
      { cbn. specialize (Hx p Hp). apply Z.eqb_neq in Hx. now rewrite Hx. }
      rewrite Hm, orb_false_r.
      destruct (debt.mem (debt.id p) (debt.invalid_payments s)) eqn:M; [ | reflexivity].
      specialize (Hc p Hp M). destruct p as [a b c v]. cbn in Hc. now subst v.
    + rewrite invalidPayments_invalid. apply in_or_app. right. now left.
Qed.

Lemma unknown_id_changes_no_payment_witness :
  debt.payments (debt.deleteInvalidPayment ledger_paid_twice 9)
  = debt.payments ledger_paid_twice /\
  debt.payments (debt.invalidPayments ledger_paid_twice 9)
  = debt.payments ledger_paid_twice.
Proof.
  assert (Hx : forall p, In p (debt.payments ledger_paid_twice) -> debt.id p <> 9%Z)
    by (intros p [<- | [<- | []]]; discriminate).
  destruct (unknown_id_changes_no_payment ledger_paid_twice 9 Hx) as [A B].
  split; [exact A | ].
  apply B. intros p _ Hm. discriminate Hm.
Defined.

(** ** Balance and payments *)

Section BalanceProperties.

Variable strptime : string -> option Z.

(** X19.  Once a ledger has a payment, valid or not, its balance is
    never negative. *)
Theorem balance_never_negative (s : debt.obj) (b : R) :
  debt.payments s <> [] ->
  debt.actualFinalDebt strptime s = Ret b ->
  0 <= b.
Proof.
  intros Hne. unfold debt.actualFinalDebt.
  destruct (debt.payments s) as [| p ps]; [now elim Hne | ].
  destruct (debt.actualFinalDebt_loop strptime s (p :: ps) 0) as [t | e | ];
    cbn [bind]; try discriminate.
  unfold py_lt. destruct (Rlt_dec (debt.final_capital s - t) 0) as [L | G];
    intros E; injection E as <-; lra.
Qed.

Lemma sum_outcomes_app (xs ys : list (outcome R)) :
  sum_outcomes (xs ++ ys)
  = (x <- sum_outcomes xs ;; y <- sum_outcomes ys ;; Ret (x + y)).
Proof.
  induction xs as [| c xs IH].
  - cbn. destruct (sum_outcomes ys); cbn; [f_equal; lra | reflexivity | reflexivity].
  - cbn [app sum_outcomes]. rewrite IH.
    destruct c as [x | e | ]; cbn [bind]; [ | reflexivity | reflexivity].
    destruct (sum_outcomes xs) as [t | e | ]; cbn [bind]; [ | reflexivity | reflexivity].
    destruct (sum_outcomes ys) as [u | e | ]; cbn [bind]; [ | reflexivity | reflexivity].
    f_equal. lra.
Qed.

Lemma registerPayment_fields (now_string : string) (s : debt.obj) (a : R) (d : string) :
  debt.final_capital (debt.registerPayment now_string s a d) = debt.final_capital s /\
  debt.final_date (debt.registerPayment now_string s a d) = debt.final_date s /\
  debt.discount_rate (debt.registerPayment now_string s a d) = debt.discount_rate s.
Proof.
  destruct s as [ps ip d0 d1 d2 c r fc dr st].
  unfold debt.registerPayment. destruct ps; now repeat split.
Qed.

(** The balance of a ledger with at least one payment, from the sum of
    its future-valued valid payments. *)
Lemma balance_from_sum (s : debt.obj) (ps : list debt.payment) :
  ps <> [] -> debt.payments s = ps ->
  debt.actualFinalDebt strptime s
  = (t <- sum_outcomes (map (future_valued strptime s) (filter debt.valid ps)) ;;
     if py_lt (debt.final_capital s - t) 0 then Ret 0
     else Ret (debt.final_capital s - t)).
Proof.
  intros Hne E. unfold debt.actualFinalDebt. rewrite E.
  destruct ps as [| p ps]; [now elim Hne | ].
  rewrite actualFinalDebt_loop_sum.
  destruct (sum_outcomes _) as [t | e | ]; cbn [bind]; [ | reflexivity | reflexivity].
  now rewrite Rplus_0_l.
Qed.

Lemma future_valued_ext (s s' : debt.obj) (p : debt.payment) :
  debt.final_date s = debt.final_date s' ->
  debt.discount_rate s = debt.discount_rate s' ->
  future_valued strptime s p = future_valued strptime s' p.
Proof.
  intros Hf Hd. unfold future_valued, debt.daysToGo, debt.discountRate.
  now rewrite Hf, Hd.
Qed.

(** X20.  A payment never raises the balance: with a daily discount rate
    above -1, registering a payment of an amount that is not negative
    gives a balance no higher than before, on a ledger that already has
    a payment or whose final capital is not negative. *)
Theorem payment_never_raises_balance (now_string : string) (s : debt.obj)
    (a : R) (d : string) (dr b b' : R) :
  0 <= a ->
  debt.discountRate s (CapStr "daily") = Ret dr -> -1 < dr ->
  debt.payments s <> [] \/ 0 <= debt.final_capital s ->
  debt.actualFinalDebt strptime s = Ret b ->
  debt.actualFinalDebt strptime (debt.registerPayment now_string s a d) = Ret b' ->
  b' <= b.
Proof.
  intros Ha Hdr Hdr1 Hdom Hb Hb'.
  destruct (registerPayment_payments now_string s a d) as (p & Hp & Hv & Hamt & _ & _).
  destruct (registerPayment_fields now_string s a d) as (Hc & Hf & Hd).
  set (s' := debt.registerPayment now_string s a d) in *.
  rewrite (balance_from_sum s' (debt.payments s ++ [p])) in Hb';
    [ | intros N; apply app_eq_nil in N; destruct N; discriminate | exact Hp].
  rewrite filter_app, map_app, sum_outcomes_app in Hb'.
  cbn [filter] in Hb'. rewrite Hv in Hb'. cbn [map sum_outcomes] in Hb'.
  rewrite (map_ext _ _ (fun q => future_valued_ext s' s q Hf Hd)) in Hb'.
  rewrite (future_valued_ext s' s p Hf Hd), Hc in Hb'.
  destruct (sum_outcomes (map (future_valued strptime s) (filter debt.valid (debt.payments s))))
    as [t | e | ] eqn:Ht; cbn [bind] in Hb'; try discriminate.
  assert (Hfv : exists f, future_valued strptime s p = Ret f /\ 0 <= f).
  { unfold future_valued in *.
    destruct (debt.daysToGo strptime s _) as [dl | e | ]; cbn [bind] in *; try discriminate.
    rewrite Hdr in *. cbn [bind] in *. unfold futureValue in *.
    rewrite pypow_pos in * by lra. cbn [bind] in *.
    eexists. split; [reflexivity | ].
    rewrite Hamt. apply Rmult_le_pos; [exact Ha | ].
    left. apply Rpower_positive. }
  destruct Hfv as (f & Hfv & Hf0). rewrite Hfv in Hb'. cbn [bind] in Hb'.
  destruct (debt.payments s) as [| p0 ps] eqn:E.
  - unfold debt.actualFinalDebt in Hb. rewrite E in Hb. injection Hb as <-.
    destruct Hdom as [N | Hfc]; [now elim N | ].
    cbn in Ht. injection Ht as <-.
    unfold py_lt in Hb'.
    destruct (Rlt_dec _ 0) in Hb'; injection Hb' as <-; lra.
  - rewrite (balance_from_sum s (p0 :: ps)) in Hb; [ | discriminate | exact E].
    rewrite Ht in Hb. cbn [bind] in Hb. unfold py_lt in Hb, Hb'.
    destruct (Rlt_dec _ 0) in Hb; destruct (Rlt_dec _ 0) in Hb';
      injection Hb as <-; injection Hb' as <-; lra.
Qed.

(** X21.  Paying on the maturity date costs the balance: when the daily
    discount rate evaluates, [payDebt] for a date that is the maturity
    date returns what [actualFinalDebt] returns. *)
Theorem payDebt_on_maturity_date (today : Z) (s : debt.obj) (d : string) (dr : R) :
  strptime d = Some (debt.final_date s) ->
  debt.discountRate s (CapStr "daily") = Ret dr ->
  debt.payDebt strptime today s (Some d) = debt.actualFinalDebt strptime s.
Proof.
  intros Hd Hdr. unfold debt.payDebt, debt.parse. rewrite Hd. cbn [bind debt.daysToGo].
  rewrite Hdr, Z.sub_diag. cbn [bind].
  destruct (debt.actualFinalDebt strptime s) as [b | e | ]; cbn [bind];
    [ | reflexivity | reflexivity].
  unfold presetValue. rewrite Ropp_0, pypow_zero_exponent. cbn [bind].
  f_equal. lra.
Qed.

(** [payDebt] without a date, called on the day the ledger takes
    for today, is [actualPresentDebt], when the daily discount rate
    evaluates. *)
Theorem payDebt_today (s : debt.obj) (dr : R) :
  debt.discountRate s (CapStr "daily") = Ret dr ->
  debt.payDebt strptime (debt.actual_date s) s None = debt.actualPresentDebt strptime s.
Proof.
  intros Hdr. unfold debt.payDebt, debt.actualPresentDebt.
  cbn [bind debt.daysToGo]. rewrite Hdr. cbn [bind].
  destruct (debt.actualFinalDebt strptime s); reflexivity.
Qed.

(** X22.  Before maturity, with a daily discount rate that is not
    negative, the present value of a balance that is not negative lies
    between 0 and the balance. *)
Theorem present_debt_bounded (s : debt.obj) (b dr : R) :
  debt.actualFinalDebt strptime s = Ret b -> 0 <= b ->
  debt.discountRate s (CapStr "daily") = Ret dr -> 0 <= dr ->
  (debt.actual_date s <= debt.final_date s)%Z ->
  exists pv, debt.actualPresentDebt strptime s = Ret pv /\ 0 <= pv <= b.
Proof.
  intros Hb Hb0 Hdr Hdr0 Hdays.
  unfold debt.actualPresentDebt. rewrite Hb, Hdr. cbn [bind debt.daysToGo].
  unfold presetValue. rewrite pypow_pos by lra. cbn [bind].
  eexists. split; [reflexivity | ].
  set (P := Rpower (1 + dr) _).
  assert (HP : 0 < P) by apply Rpower_positive.
  assert (HP1 : P <= 1).
  { assert (Hd : 0 <= IZR (debt.final_date s - debt.actual_date s))
      by (apply IZR_le; lia).
    pose proof (Rle_Rpower (1 + dr)
                  (- IZR (debt.final_date s - debt.actual_date s)) 0) as H.
    rewrite Rpower_O in H by lra. apply H; lra. }
  nra.
Qed.

(** The dates add up: the days from one date to another, plus the
    days to go from the second, are the days to go from the first. *)
Theorem diffDates_daysToGo (s : debt.obj) (date0 date1 : string) (n m : Z) :
  debt.diffDates strptime s date0 date1 = Ret n ->
  debt.daysToGo strptime s (debt.RefStr date1) = Ret m ->
  debt.daysToGo strptime s (debt.RefStr date0) = Ret (n + m)%Z.
Proof.
  unfold debt.diffDates, debt.parse, debt.daysToGo.
  destruct (strptime date0) as [d0 | ]; cbn [bind]; [ | discriminate].
  destruct (strptime date1) as [d1 | ]; cbn [bind]; [ | discriminate].
  intros E1 E2. injection E1 as <-. injection E2 as <-. f_equal. lia.
Qed.

End BalanceProperties.

(** *** The sample ledgers *)

Lemma sample_discountRate (s : debt.obj) :
  debt.discount_rate s = interest_rate.mk (mk_rate_dict (7 / 100) (360 / 28)) ->
  debt.discountRate s (CapStr "daily") = Ret sample_daily_rate.
Proof.
  intros E. apply discountRate_daily; [now rewrite E | lra | lra].
Qed.

Lemma sample_daily_rate_nonneg : 0 <= sample_daily_rate.
Proof.
  unfold sample_daily_rate.
  pose proof (Rle_Rpower (1 + 7 / 100 / (360 / 28)) 0 (360 / 28 / 360)) as H.
  rewrite Rpower_O in H by lra.
  assert (1 <= Rpower (1 + 7 / 100 / (360 / 28)) (360 / 28 / 360)) by (apply H; lra).
  lra.
Qed.

Lemma paid_twice_balance :
  debt.actualFinalDebt strptime_sample ledger_paid_twice = Ret (11286.95 - 3000).
Proof.
  assert (H : debt.payments ledger_paid_twice
              = [debt.mk_payment 1 "Jan 01 2022" 1000 true;
                 debt.mk_payment 2 "Jan 01 2022" 2000 true]) by reflexivity.
  rewrite sample_balance; rewrite ?H; try reflexivity.
  - cbn [valid_amounts fold_right debt.valid debt.amount].
    change (debt.final_capital ledger_paid_twice) with 11286.95. f_equal. lra.
  - discriminate.
  - repeat constructor.
  - cbn [valid_amounts fold_right debt.valid debt.amount].
    change (debt.final_capital ledger_paid_twice) with 11286.95. lra.
Qed.

Lemma paid_thrice_balance :
  debt.actualFinalDebt strptime_sample ledger_paid_thrice = Ret (11286.95 - 3500).
Proof.
  assert (H : debt.payments ledger_paid_thrice
              = [debt.mk_payment 1 "Jan 01 2022" 1000 true;
                 debt.mk_payment 2 "Jan 01 2022" 2000 true;
                 debt.mk_payment 3 "Jan 01 2022" 500 true]) by reflexivity.
  rewrite sample_balance; rewrite ?H; try reflexivity.
  - cbn [valid_amounts fold_right debt.valid debt.amount].
    change (debt.final_capital ledger_paid_thrice) with 11286.95. f_equal. lra.
  - discriminate.
  - repeat constructor.
  - cbn [valid_amounts fold_right debt.valid debt.amount].
    change (debt.final_capital ledger_paid_thrice) with 11286.95. lra.
Qed.

Lemma balance_never_negative_witness :
  debt.payments ledger_paid_twice <> [] /\
  debt.actualFinalDebt strptime_sample ledger_paid_twice = Ret (11286.95 - 3000) /\
  0 <= 11286.95 - 3000.
Proof.
  assert (Hne : debt.payments ledger_paid_twice <> []) by discriminate.
  split; [exact Hne | split; [exact paid_twice_balance | ]].
  exact (balance_never_negative strptime_sample ledger_paid_twice _ Hne paid_twice_balance).
Defined.

Lemma payment_never_raises_balance_witness :
  0 <= 500 /\ -1 < sample_daily_rate /\
  debt.actualFinalDebt strptime_sample ledger_paid_twice = Ret (11286.95 - 3000) /\
  debt.actualFinalDebt strptime_sample
    (debt.registerPayment "Jun 30 2021" ledger_paid_twice 500 "Jan 01 2022")
  = Ret (11286.95 - 3500) /\
  11286.95 - 3500 <= 11286.95 - 3000.
Proof.
  assert (Hr : -1 < sample_daily_rate) by (pose proof sample_daily_rate_nonneg; lra).
  split; [lra | split; [exact Hr | split; [exact paid_twice_balance | ]]].
  split; [exact paid_thrice_balance | ].
  apply (payment_never_raises_balance strptime_sample "Jun 30 2021" ledger_paid_twice
           500 "Jan 01 2022" sample_daily_rate).
  - lra.
  - now apply sample_discountRate.
  - exact Hr.
  - left. discriminate.
  - exact paid_twice_balance.
  - exact paid_thrice_balance.
Defined.

Lemma payDebt_on_maturity_date_witness :
  strptime_sample "Jan 01 2022" = Some (debt.final_date ledger_paid_twice) /\
  debt.payDebt strptime_sample 737971 ledger_paid_twice (Some "Jan 01 2022")
  = debt.actualFinalDebt strptime_sample ledger_paid_twice.
Proof.
  split; [reflexivity | ].
  apply (payDebt_on_maturity_date strptime_sample 737971 ledger_paid_twice
           "Jan 01 2022" sample_daily_rate); [reflexivity | ].
  now apply sample_discountRate.
Defined.

Lemma payDebt_today_witness :
  debt.discountRate ledger_paid_twice (CapStr "daily") = Ret sample_daily_rate /\
  debt.payDebt strptime_sample (debt.actual_date ledger_paid_twice) ledger_paid_twice None
  = debt.actualPresentDebt strptime_sample ledger_paid_twice.
Proof.
  assert (H : debt.discountRate ledger_paid_twice (CapStr "daily") = Ret sample_daily_rate)
    by now apply sample_discountRate.
  split; [exact H | ].
  exact (payDebt_today strptime_sample ledger_paid_twice sample_daily_rate H).
Defined.

Lemma present_debt_bounded_witness :
  0 <= 11286.95 - 3000 /\ 0 <= sample_daily_rate /\
  (debt.actual_date ledger_paid_twice <= debt.final_date ledger_paid_twice)%Z /\
  exists pv, debt.actualPresentDebt strptime_sample ledger_paid_twice = Ret pv /\
             0 <= pv <= 11286.95 - 3000.
Proof.
  assert (Hd : (debt.actual_date ledger_paid_twice
                <= debt.final_date ledger_paid_twice)%Z) by (cbn; lia).
  split; [lra | split; [exact sample_daily_rate_nonneg | split; [exact Hd | ]]].
  apply (present_debt_bounded strptime_sample ledger_paid_twice _ sample_daily_rate).
  - exact paid_twice_balance.
  - lra.
  - now apply sample_discountRate.
  - exact sample_daily_rate_nonneg.
  - exact Hd.
Defined.

Lemma diffDates_daysToGo_witness :
  debt.diffDates strptime_sample ledger_paid_twice "Jan 01 2021" "Jul 01 2021" = Ret 181%Z /\
  debt.daysToGo strptime_sample ledger_paid_twice (debt.RefStr "Jul 01 2021") = Ret 184%Z /\
  debt.daysToGo strptime_sample ledger_paid_twice (debt.RefStr "Jan 01 2021")
  = Ret (181 + 184)%Z.
Proof.
  split; [reflexivity | split; [reflexivity | ]].
  apply (diffDates_daysToGo strptime_sample ledger_paid_twice
           "Jan 01 2021" "Jul 01 2021" 181 184); reflexivity.
Defined.

(** X23.  Away from the maturity date [status] answers by the balance
    and the side of the maturity date: Done for a balance of 0, Overdue
    for a positive balance after maturity, Active for a positive balance
    before maturity. *)
Theorem status_by_balance_and_date (strptime : string -> option Z)
    (self : debt.obj) (b : R) :
  debt.actualFinalDebt strptime self = Ret b ->
  (b = 0 -> fst (debt.status strptime self) = Ret "Done.") /\
  (0 < b -> (debt.final_date self < debt.actual_date self)%Z ->
   fst (debt.status strptime self) = Ret "Overdue.") /\
  (0 < b -> (debt.actual_date self < debt.final_date self)%Z ->
   fst (debt.status strptime self) = Ret "Active.").
Proof.
  intros Hb. destruct (status_away_from_maturity strptime self b Hb) as (A & B & C).
  split; [exact A | split; [exact B | exact C]].
Qed.

Lemma status_by_balance_and_date_witness :
  debt.actualFinalDebt strptime_sample ledger_paid_twice = Ret (11286.95 - 3000) /\
  fst (debt.status strptime_sample ledger_paid_twice) = Ret "Active.".
Proof.
  split; [exact paid_twice_balance | ].
  destruct (status_by_balance_and_date strptime_sample ledger_paid_twice _
              paid_twice_balance) as (_ & _ & A).
  apply A; [lra | cbn; lia].
Defined.

(** ** The constructor of a ledger *)

Lemma pyround2_close (x : R) : Rabs (pyround2 x - x) <= 1 / 200.
Proof.
  unfold pyround2.
  destruct (base_Int_part (x * 100)) as [H1 H2].
  set (f := Int_part (x * 100)) in *.
  apply Rabs_le.
  destruct (Rlt_dec (x * 100 - IZR f) (1 / 2)) as [L | NL]; [lra | ].
  destruct (Rlt_dec (1 / 2) (x * 100 - IZR f)) as [G | NG].
  - rewrite plus_IZR. lra.
  - destruct (Z.even f); [lra | rewrite plus_IZR; lra].
Qed.

Section Constructor.

Variable strptime : string -> option Z.

(** X24.  A ledger fresh from the constructor has no payment, no
    recorded invalid id and no status; its balance is its final capital,
    which is the future value of the capital at the daily contracted
    rate over the days from issue to maturity, rounded to within half a
    cent; its discount rate is the reference rate of the chosen tenor,
    as a fraction, capitalizing [360 / tenor] times a year. *)
Theorem init_fresh_ledger (cetes : list (Z * R)) (today : Z)
    (initial_date final_date : string) (capital : R) (rate : rate_dict)
    (tenor : Z) (s : debt.obj) :
  debt.init strptime cetes today initial_date final_date capital rate tenor = Ret s ->
  debt.payments s = [] /\ debt.invalid_payments s = [] /\
  debt.debt_status s = None /\ debt.actual_date s = today /\
  debt.actualFinalDebt strptime s = Ret (debt.final_capital s) /\
  (exists r fv,
     interest_rate.rate (interest_rate.mk rate) (CapInt 360) = Ret r /\
     strptime initial_date = Some (debt.initial_date s) /\
     strptime final_date = Some (debt.final_date s) /\
     futureValue capital r (IZR (debt.final_date s - debt.initial_date s)) = Ret fv /\
     Rabs (debt.final_capital s - fv) <= 1 / 200) /\
  (exists c,
     int_dict_get cetes tenor = Some c /\
     debt.discount_rate s = interest_rate.mk (mk_rate_dict (c / 100) (360 / IZR tenor))).
Proof.
  unfold debt.init, debt.parse.
  destruct (strptime initial_date) as [d0 | ]; cbn [bind]; [ | discriminate].
  destruct (strptime final_date) as [d1 | ]; cbn [bind]; [ | discriminate].
  destruct (interest_rate.rate _ _) as [r | e | ]; cbn [bind]; try discriminate.
  destruct (futureValue _ _ _) as [fv | e | ] eqn:Hfv; cbn [bind]; try discriminate.
  destruct (int_dict_get cetes tenor) as [c | ]; [ | discriminate].
  rewrite pydiv_nonzero by lra. cbn [bind].
  unfold pydiv. destruct (Req_dec_T (IZR tenor) 0); cbn [bind]; [discriminate | ].
  intros E. injection E as <-.
  cbn [debt.payments debt.invalid_payments debt.debt_status debt.actual_date
       debt.final_capital debt.initial_date debt.final_date debt.discount_rate].
  repeat (split; [reflexivity | ]).
  split.
  - exists r, fv. repeat (split; [reflexivity | ]).
    split; [exact Hfv | apply pyround2_close].
  - exists c. split; reflexivity.
Qed.

(** X25.  The constructor fails on what it cannot read: ValueError for
    an issue date or a maturity date that does not parse, and KeyError
    for a tenor that the table of reference rates lacks, where the same
    arguments with a table that has the tenor give a ledger. *)
Theorem init_errors (cetes cetes' : list (Z * R)) (today : Z)
    (initial_date final_date : string) (capital : R) (rate : rate_dict)
    (tenor : Z) :
  (strptime initial_date = None \/ strptime final_date = None ->
   debt.init strptime cetes today initial_date final_date capital rate tenor
   = Raise ValueError) /\
  (forall s,
     debt.init strptime cetes today initial_date final_date capital rate tenor = Ret s ->
     int_dict_get cetes' tenor = None ->
     debt.init strptime cetes' today initial_date final_date capital rate tenor
     = Raise KeyError).
Proof.
  unfold debt.init, debt.parse. split.
  - intros [E | E].
    + now rewrite E.
    + rewrite E. now destruct (strptime initial_date).
  - intros s.
    destruct (strptime initial_date) as [d0 | ]; cbn [bind]; [ | discriminate].
    destruct (strptime final_date) as [d1 | ]; cbn [bind]; [ | discriminate].
    destruct (interest_rate.rate _ _) as [r | e | ]; cbn [bind]; try discriminate.
    destruct (futureValue _ _ _) as [fv | e | ]; cbn [bind]; try discriminate.
    intros _ E. now rewrite E.
Qed.

End Constructor.

Lemma init_sample_returns :
  exists s,
    debt.init strptime_sample cetes_sample 737971 "Jan 01 2021" "Jan 01 2022"
      10000 (mk_rate_dict 0.12 12) 28
    = Ret s.
Proof.
  unfold debt.init, debt.parse.
  change (strptime_sample "Jan 01 2021") with (Some 737791%Z).
  change (strptime_sample "Jan 01 2022") with (Some 738156%Z).
  cbn [bind].
  unfold interest_rate.rate, interest_rate.annualRate.
  cbn [interest_rate.get_aux interest_rate.is_cont bind
       interest_rate.reference_rate dict_rate dict_cap].
  unfold equivalentRate.
  rewrite !pydiv_nonzero by lra. cbn [bind].
  rewrite pypow_pos by lra. cbn [bind].
  set (p := Rpower (1 + 0.12 / 12) (12 / 360)).
  assert (Hp : 0 < p) by apply Rpower_positive.
  rewrite pydiv_nonzero by lra. cbn [bind].
  unfold futureValue. rewrite pypow_pos by lra. cbn [bind].
  change (int_dict_get cetes_sample 28) with (Some 7). cbv iota beta.
  rewrite !pydiv_nonzero by lra. cbn [bind].
  eexists. reflexivity.
Qed.

Lemma init_fresh_ledger_witness :
  exists s,
    debt.init strptime_sample cetes_sample 737971 "Jan 01 2021" "Jan 01 2022"
      10000 (mk_rate_dict 0.12 12) 28
    = Ret s /\
    debt.payments s = [] /\
    debt.actualFinalDebt strptime_sample s = Ret (debt.final_capital s).
Proof.
  destruct init_sample_returns as [s H]. exists s. split; [exact H | ].
  destruct (init_fresh_ledger strptime_sample _ _ _ _ _ _ _ s H) as (A & _ & _ & _ & B & _).
  split; [exact A | exact B].
Defined.

Lemma init_errors_witness :
  strptime_sample "01/01/2021" = None /\
  debt.init strptime_sample cetes_sample 737971 "01/01/2021" "Jan 01 2022"
    10000 (mk_rate_dict 0.12 12) 28
  = Raise ValueError /\
  int_dict_get (@nil (Z * R)) 28 = None /\
  debt.init strptime_sample [] 737971 "Jan 01 2021" "Jan 01 2022"
    10000 (mk_rate_dict 0.12 12) 28
  = Raise KeyError.
Proof.
  split; [reflexivity | split; [ | split; [reflexivity | ]]].
  - apply (proj1 (init_errors strptime_sample cetes_sample cetes_sample 737971
                    "01/01/2021" "Jan 01 2022" 10000 (mk_rate_dict 0.12 12) 28)).
    left. reflexivity.
  - destruct init_sample_returns as [s H].
    apply (proj2 (init_errors strptime_sample cetes_sample [] 737971
                    "Jan 01 2021" "Jan 01 2022" 10000 (mk_rate_dict 0.12 12) 28) s H).
    reflexivity.
Defined.

(** ** Bonds: construction and prices *)

Lemma pyint_nonneg (x : R) :
  0 <= x -> (0 <= pyint x)%Z /\ 0 <= x - IZR (pyint x) < 1.
Proof.
  intros Hx. unfold pyint. destruct (Rle_dec 0 x) as [_ | N]; [ | contradiction].
  destruct (base_Int_part x) as [H1 H2]. split; [ | lra].
  assert (Hz : (-1 < Int_part x)%Z) by (apply lt_IZR; lra).
  lia.
Qed.

(** X26.  The constructor of a bond raises ZeroDivisionError for a
    coupon period of 0 days and returns a bond otherwise.  In that bond
    the days passed and the days pending of the current period add up to
    the coupon period, the pending coupons are the whole ones plus the
    fraction, and, for a time to maturity and a period of the same sign,
    the fraction lies in [0, 1) and the number of whole coupons is not
    negative. *)
Theorem bond_init_invariants (nv dp ir mr t2m : R) :
  (dp = 0 -> Bonds.init nv dp ir mr t2m = Raise ZeroDivisionError) /\
  (dp <> 0 ->
   exists b, Bonds.init nv dp ir mr t2m = Ret b /\
     Bonds.passed_units b + Bonds.pending_units b = dp /\
     Bonds.pending_coupons (Bonds.coupons b)
     = IZR (Bonds.integer_coupons (Bonds.coupons b)) + Bonds.float_coupons (Bonds.coupons b) /\
     Bonds.pending_coupons (Bonds.coupons b) = t2m / dp /\
     (0 <= t2m / dp ->
      (0 <= Bonds.integer_coupons (Bonds.coupons b))%Z /\
      0 <= Bonds.float_coupons (Bonds.coupons b) < 1)).
Proof.
  split.
  - intros ->. unfold Bonds.init. now rewrite pydiv_zero.
  - intros Hdp. unfold Bonds.init. rewrite (pydiv_nonzero t2m dp Hdp), bind_Ret.
    eexists. split; [reflexivity | ].
    cbn [Bonds.passed_units Bonds.pending_units Bonds.coupons Bonds.pending_coupons
         Bonds.integer_coupons Bonds.float_coupons].
    split; [lra | split; [lra | split; [reflexivity | ]]].
    intros H. now apply pyint_nonneg.
Qed.

Lemma bond_init_invariants_witness :
  182 <> 0 /\
  exists b, Bonds.init 100 182 0.082 0.085 100 = Ret b /\
            Bonds.passed_units b + Bonds.pending_units b = 182.
Proof.
  split; [lra | ].
  destruct (proj2 (bond_init_invariants 100 182 0.082 0.085 100)) as (b & H & A & _);
    [lra | ].
  exists b. split; [exact H | exact A].
Defined.

Lemma dirtyPrice_coupons (b : Bonds.obj) :
  Bonds.coupons (snd (Bonds.dirtyPrice b)) = Bonds.coupons b.
Proof.
  unfold Bonds.dirtyPrice, mbind, mread, massign.
  destruct (Bonds.dirtyPrice_loop b _ _ _) as [l | e | ]; reflexivity.
Qed.

(** X27.  Without a stub period the clean price is the dirty price:
    when the fraction of pending coupons is 0, [cleanPrice] returns what
    [dirtyPrice] returns. *)
Theorem cleanPrice_without_stub (b : Bonds.obj) :
  Bonds.float_coupons (Bonds.coupons b) = 0 ->
  fst (Bonds.cleanPrice b) = fst (Bonds.dirtyPrice b).
Proof.
  intros Hf. unfold Bonds.cleanPrice, mbind at 1.
  pose proof (dirtyPrice_coupons b) as Hc.
  destruct (Bonds.dirtyPrice b) as [[dp | e | ] b1]; cbn [fst snd] in *;
    [ | reflexivity | reflexivity].
  unfold mbind, massign.
  cbn [Bonds.set_dirty_price Bonds.coupons]. rewrite Hc, Hf, py_eq_true. reflexivity.
Qed.

(** The sum of a list of floats, from any start. *)
Lemma fold_left_Rplus (l : list R) (a : R) :
  fold_left Rplus l a = a + fold_left Rplus l 0.
Proof.
  revert a. induction l as [| x l IH]; intros a; cbn [fold_left]; [lra | ].
  rewrite (IH (a + x)), (IH (0 + x)). lra.
Qed.

(** The loop of [dirtyPrice] on a bond whose coupon is the market
    interest of one period on the nominal value: the cash flows from
    coupon [j] to the last one are worth the nominal value one period
    before coupon [j]. *)
Lemma dirtyPrice_loop_par (b : Bonds.obj) (k : nat) :
  0 < 1 + Bonds.delta_periods (Bonds.coupons b) * Bonds.market_rate b / 360 ->
  Bonds.value (Bonds.coupons b)
  = Bonds.nominal_value b
    * (Bonds.delta_periods (Bonds.coupons b) * Bonds.market_rate b / 360) ->
  forall (j : Z) (acc : list R),
    (j + Z.of_nat (S k) = Bonds.integer_coupons (Bonds.coupons b) + 1)%Z ->
    exists l,
      Bonds.dirtyPrice_loop b (S k) j acc = Ret (acc ++ l) /\
      fold_left Rplus l 0
      = Bonds.nominal_value b
        * Rpower (1 + Bonds.delta_periods (Bonds.coupons b) * Bonds.market_rate b / 360)
                 (- IZR j + 1).
Proof.
  intros Hq Hv.
  set (q := 1 + Bonds.delta_periods (Bonds.coupons b) * Bonds.market_rate b / 360) in *.
  assert (Hstep : forall j, Rpower q (- IZR j) * q = Rpower q (- IZR j + 1)).
  { intros j. rewrite Rpower_plus, Rpower_1 by exact Hq. reflexivity. }
  induction k as [| k IH]; intros j acc Hj.
  - cbn [Bonds.dirtyPrice_loop].
    replace (Z.eqb j (Bonds.integer_coupons (Bonds.coupons b))) with true
      by (symmetry; apply Z.eqb_eq; lia).
    unfold presetValue. fold q. rewrite (pypow_pos _ _ Hq). cbn [bind].
    eexists. split; [reflexivity | ].
    cbn [fold_left]. rewrite Hv, <- Hstep. unfold q. ring.
  - cbn [Bonds.dirtyPrice_loop].
    replace (Z.eqb j (Bonds.integer_coupons (Bonds.coupons b))) with false
      by (symmetry; apply Z.eqb_neq; lia).
    unfold presetValue at 1. fold q. rewrite (pypow_pos _ _ Hq). cbn [bind].
    destruct (IH (j + 1)%Z (acc ++ [Bonds.value (Bonds.coupons b) * Rpower q (- IZR j)]))
      as (l & Hl & Hs); [lia | ].
    change (Bonds.dirtyPrice_loop b (S k) (j + 1) ?a) with
      (Bonds.dirtyPrice_loop b (S k) (j + 1) a) in Hl.
    exists (Bonds.value (Bonds.coupons b) * Rpower q (- IZR j) :: l). split.
    + cbn [Bonds.dirtyPrice_loop] in Hl. rewrite <- app_assoc in Hl. exact Hl.
    + cbn [fold_left]. rewrite fold_left_Rplus, Hs, plus_IZR, Hv, <- Hstep.
      replace (- (IZR j + 1) + 1) with (- IZR j) by lra.
      unfold q. ring.
Qed.

(** X28.  A par bond is priced at par: a bond whose coupon rate is the
    market rate, with a whole number [n >= 1] of coupon periods to
    maturity and a periodic rate above -1, has a dirty price equal to
    its nominal value. *)
Theorem par_bond_at_par (nv dp y : R) (n : Z) :
  0 < dp -> (1 <= n)%Z -> 0 < 1 + dp * y / 360 ->
  exists b, Bonds.init nv dp y y (IZR n * dp) = Ret b /\
            fst (Bonds.dirtyPrice b) = Ret nv.
Proof.
  intros Hdp Hn Hq.
  unfold Bonds.init. rewrite pydiv_nonzero by lra. rewrite bind_Ret.
  replace (IZR n * dp / dp) with (IZR n) by (field; lra).
  assert (Hint : pyint (IZR n) = n).
  { unfold pyint. destruct (Rle_dec 0 (IZR n)) as [_ | N]; [apply Int_part_IZR | ].
    elim N. apply IZR_le. lia. }
  rewrite Hint. eexists. split; [reflexivity | ].
  match goal with |- fst (Bonds.dirtyPrice ?b0) = _ => set (b := b0) end.
  assert (Hk : Z.to_nat (Bonds.integer_coupons (Bonds.coupons b)) = S (Z.to_nat (n - 1)))
    by (cbn; lia).
  destruct (dirtyPrice_loop_par b (Z.to_nat (n - 1))) with (j := 1%Z) (acc := @nil R)
    as (l & Hl & Hs).
  - exact Hq.
  - cbn. lra.
  - cbn [b Bonds.coupons Bonds.integer_coupons]. lia.
  - unfold Bonds.dirtyPrice, mbind, mread, massign. rewrite Hk, Hl.
    cbn [app Bonds.set_lsp Bonds.coupons Bonds.float_coupons b].
    replace (py_eq (IZR n - IZR n) 0) with true
      by (symmetry; unfold py_eq; destruct (Req_dec_T (IZR n - IZR n) 0); [reflexivity | lra]).
    cbn [fst]. unfold Bonds.pysum. rewrite Hs.
    replace (- IZR 1 + 1) with 0 by lra.
    cbn [b Bonds.nominal_value Bonds.coupons Bonds.delta_periods Bonds.market_rate].
    rewrite Rpower_O by exact Hq. f_equal. lra.
Qed.

Lemma par_bond_at_par_witness :
  0 < 182 /\ (1 <= 4)%Z /\ 0 < 1 + 182 * 0.085 / 360 /\
  exists b, Bonds.init 100 182 0.085 0.085 (IZR 4 * 182) = Ret b /\
            fst (Bonds.dirtyPrice b) = Ret 100.
Proof.
  split; [lra | split; [lia | split; [lra | ]]].
  apply (par_bond_at_par 100 182 0.085 4); [lra | lia | lra].
Defined.

Lemma init_whole_coupon_bond :
  Bonds.init 100 182 0.085 0.085 728 = Ret whole_coupon_bond.
Proof.
  unfold Bonds.init. rewrite pydiv_nonzero by lra. rewrite bind_Ret.
  assert (H : pyint (728 / 182) = 4%Z).
  { unfold pyint. destruct (Rle_dec 0 (728 / 182)) as [_ | N]; [ | lra].
    symmetry. apply Int_part_spec. lra. }
  rewrite H. reflexivity.
Qed.

Lemma cleanPrice_without_stub_witness :
  Bonds.init 100 182 0.085 0.085 728 = Ret whole_coupon_bond /\
  Bonds.float_coupons (Bonds.coupons whole_coupon_bond) = 0 /\
  fst (Bonds.cleanPrice whole_coupon_bond) = fst (Bonds.dirtyPrice whole_coupon_bond).
Proof.
  assert (H : Bonds.float_coupons (Bonds.coupons whole_coupon_bond) = 0)
    by (cbn [Bonds.float_coupons Bonds.coupons whole_coupon_bond]; lra).
  split; [exact init_whole_coupon_bond | split; [exact H | ]].
  exact (cleanPrice_without_stub whole_coupon_bond H).
Defined.

(** The prices of a bond with no whole coupon left and a stub period. *)
Lemma stub_only_prices (b : Bonds.obj) :
  (Bonds.integer_coupons (Bonds.coupons b) <= 0)%Z ->
  Bonds.float_coupons (Bonds.coupons b) <> 0 ->
  Bonds.delta_periods (Bonds.coupons b) <> 0 ->
  0 < 1 + Bonds.delta_periods (Bonds.coupons b) * Bonds.market_rate b / 360 ->
  Bonds.dirtyPrice b = (Ret (0 + Bonds.value (Bonds.coupons b)), Bonds.set_lsp [] b) /\
  fst (Bonds.cleanPrice b)
  = Ret ((0 + Bonds.value (Bonds.coupons b))
         / Rpower (1 + Bonds.delta_periods (Bonds.coupons b) * Bonds.market_rate b / 360)
                  (Bonds.pending_units b / Bonds.delta_periods (Bonds.coupons b))
         - Bonds.nominal_value b * Bonds.interest_rate (Bonds.coupons b)
           * Bonds.passed_units b / 360).
Proof.
  intros Hi Hf Hd Hq.
  assert (Hdirty : Bonds.dirtyPrice b
                   = (Ret (0 + Bonds.value (Bonds.coupons b)), Bonds.set_lsp [] b)).
  { unfold Bonds.dirtyPrice, mbind, mread, massign.
    replace (Z.to_nat (Bonds.integer_coupons (Bonds.coupons b))) with O by lia.
    cbn [Bonds.dirtyPrice_loop Bonds.set_lsp Bonds.coupons].
    rewrite (py_eq_false _ _ Hf). reflexivity. }
  split; [exact Hdirty | ].
  unfold Bonds.cleanPrice, mbind at 1. rewrite Hdirty.
  unfold mbind, massign, mread, mret.
  cbn [Bonds.set_dirty_price Bonds.set_lsp Bonds.coupons Bonds.market_rate
       Bonds.pending_units Bonds.nominal_value Bonds.passed_units].
  rewrite (py_eq_false _ _ Hf).
  rewrite (pydiv_nonzero _ _ Hd), bind_Ret, (pypow_pos _ _ Hq), bind_Ret.
  rewrite pydiv_nonzero by (apply Rgt_not_eq, Rpower_positive).
  reflexivity.
Qed.

(** X30.  A bond with no whole coupon left and a stub period: the dirty
    price is one coupon value and no cash flow is listed; the clean
    price discounts that coupon over the fraction of period pending and
    subtracts the interest accrued over the days passed; and the
    duration computed after pricing is 0 when the clean price is not. *)
Theorem stub_only_bond (b : Bonds.obj) :
  (Bonds.integer_coupons (Bonds.coupons b) <= 0)%Z ->
  Bonds.float_coupons (Bonds.coupons b) <> 0 ->
  Bonds.delta_periods (Bonds.coupons b) <> 0 ->
  0 < 1 + Bonds.delta_periods (Bonds.coupons b) * Bonds.market_rate b / 360 ->
  fst (Bonds.dirtyPrice b) = Ret (Bonds.value (Bonds.coupons b)) /\
  Bonds.lsp (snd (Bonds.dirtyPrice b)) = Some [] /\
  exists cp,
    fst (Bonds.cleanPrice b) = Ret cp /\
    cp = Bonds.value (Bonds.coupons b)
         / Rpower (1 + Bonds.delta_periods (Bonds.coupons b) * Bonds.market_rate b / 360)
                  (Bonds.pending_units b / Bonds.delta_periods (Bonds.coupons b))
         - Bonds.nominal_value b * Bonds.interest_rate (Bonds.coupons b)
           * Bonds.passed_units b / 360 /\
    (cp <> 0 -> fst (Bonds.getDuration (snd (Bonds.dirtyPrice b))) = Ret 0).
Proof.
  intros Hi Hf Hd Hq.
  destruct (stub_only_prices b Hi Hf Hd Hq) as [Hdirty Hclean].
  rewrite Hdirty. cbn [fst snd].
  split; [f_equal; lra | split; [reflexivity | ]].
  eexists. split; [exact Hclean | split].
  - now rewrite Rplus_0_l.
  - intros Hcp.
    destruct (stub_only_prices (Bonds.set_lsp [] b) Hi Hf Hd Hq) as [_ Hclean1].
    cbn [Bonds.set_lsp Bonds.coupons Bonds.market_rate Bonds.pending_units
         Bonds.nominal_value Bonds.passed_units] in Hclean1.
    unfold Bonds.getDuration, mbind at 1, mread at 1.
    cbn [Bonds.lsp Bonds.set_lsp]. unfold mbind at 1, mread at 1.
    cbn [Bonds.getDuration_loop]. unfold mbind at 1.
    destruct (Bonds.cleanPrice (Bonds.set_lsp [] b)) as [o b2].
    cbn [fst] in Hclean1. subst o.
    unfold mbind, mread, massign, mret.
    rewrite pydiv_nonzero by exact Hcp. cbn [fst]. f_equal. unfold Rdiv. ring.
Qed.

Lemma stub_only_bond_witness :
  (Bonds.integer_coupons (Bonds.coupons sample_bond) <= 0)%Z /\
  Bonds.float_coupons (Bonds.coupons sample_bond) <> 0 /\
  fst (Bonds.dirtyPrice sample_bond) = Ret (Bonds.value (Bonds.coupons sample_bond)) /\
  Bonds.lsp (snd (Bonds.dirtyPrice sample_bond)) = Some [].
Proof.
  assert (Hi : (Bonds.integer_coupons (Bonds.coupons sample_bond) <= 0)%Z) by (cbn; lia).
  assert (Hf : Bonds.float_coupons (Bonds.coupons sample_bond) <> 0)
    by (cbn [Bonds.float_coupons Bonds.coupons sample_bond]; lra).
  split; [exact Hi | split; [exact Hf | ]].
  destruct (stub_only_bond sample_bond Hi Hf) as (A & B & _).
  - cbn [Bonds.delta_periods Bonds.coupons sample_bond]. lra.
  - cbn [Bonds.delta_periods Bonds.coupons Bonds.market_rate sample_bond]. lra.
  - split; [exact A | exact B].
Defined.

(** [cleanPrice] leaves [lsp] assigned whenever it returns. *)
Lemma cleanPrice_assigns_lsp (b b' : Bonds.obj) (p : R) :
  Bonds.cleanPrice b = (Ret p, b') -> exists l, Bonds.lsp b' = Some l.
Proof.
  unfold Bonds.cleanPrice, mbind at 1.
  destruct (Bonds.dirtyPrice b) as [[dp | e | ] b1] eqn:E; try discriminate.
  destruct (dirtyPrice_assigns_lsp b b1 dp E) as [l Hl].
  unfold mbind, massign, mread, mret.
  destruct (py_eq _ _).
  - intros H. injection H as _ <-. exists l. exact Hl.
  - match goal with
    | |- (let (_, _) := (?c, _) in _) = _ -> _ => destruct c as [v | e | ]
    | |- context [match ?c with Ret _ => _ | Raise _ => _ | NonReal => _ end] =>
        destruct c as [v | e | ]
    end; intros H; try discriminate.
    injection H as _ <-. exists l. exact Hl.
Qed.

Lemma getSensibility_with_lsp (b : Bonds.obj) (l : list R) :
  Bonds.lsp b = Some l -> only_zero_division (fst (Bonds.getSensibility b)).
Proof.
  intros Hl. pose proof (getDuration_with_lsp b l Hl) as Hd.
  unfold Bonds.getSensibility, mbind, mread.
  destruct (Bonds.getDuration b) as [[d | e | ] b1]; cbn [fst] in *.
  - apply only_zero_division_pydiv.
  - exact Hd.
  - discriminate.
Qed.

(** X29.  Pricing is what duration needs: after a [dirtyPrice] or a
    [cleanPrice] that returns, [getDuration] and [getSensibility] do not
    raise AttributeError, the list they read has been assigned. *)
Theorem duration_after_pricing (b b' : Bonds.obj) (p : R) :
  Bonds.dirtyPrice b = (Ret p, b') \/ Bonds.cleanPrice b = (Ret p, b') ->
  (exists l, Bonds.lsp b' = Some l) /\
  fst (Bonds.getDuration b') <> Raise AttributeError /\
  fst (Bonds.getSensibility b') <> Raise AttributeError.
Proof.
  intros H.
  assert (Hl : exists l, Bonds.lsp b' = Some l).
  { destruct H as [H | H];
      [exact (dirtyPrice_assigns_lsp b b' p H) | exact (cleanPrice_assigns_lsp b b' p H)]. }
  split; [exact Hl | ]. destruct Hl as [l Hl]. split; intros E.
  - pose proof (getDuration_with_lsp b' l Hl AttributeError E). discriminate.
  - pose proof (getSensibility_with_lsp b' l Hl AttributeError E). discriminate.
Qed.

Lemma duration_after_pricing_witness :
  Bonds.dirtyPrice sample_bond
  = (Ret (0 + Bonds.value (Bonds.coupons sample_bond)), Bonds.set_lsp [] sample_bond) /\
  fst (Bonds.getDuration (Bonds.set_lsp [] sample_bond)) <> Raise AttributeError /\
  fst (Bonds.getSensibility (Bonds.set_lsp [] sample_bond)) <> Raise AttributeError.
Proof.
  assert (H : Bonds.dirtyPrice sample_bond
              = (Ret (0 + Bonds.value (Bonds.coupons sample_bond)),
                 Bonds.set_lsp [] sample_bond)).
  { apply stub_only_prices.
    - cbn. lia.
    - cbn [Bonds.float_coupons Bonds.coupons sample_bond]. lra.
    - cbn [Bonds.delta_periods Bonds.coupons sample_bond]. lra.
    - cbn [Bonds.delta_periods Bonds.coupons Bonds.market_rate sample_bond]. lra. }
  split; [exact H | ].
  destruct (duration_after_pricing sample_bond _ _ (or_introl H)) as (_ & A & B).
  split; [exact A | exact B].
Defined.
